(** * chatsomm-back: the two chat relays, embedded and checked against their specification

    The repository holds two variants of one Express server.  [src/server.js]
    (Variant A, module [Stateless]) replays a client-supplied history to a
    chat-completion endpoint.  The second file (Variant B, module [Assistant])
    keeps a remote thread, starts a run and polls it.

    The embedding is shallow.  JSON values are an inductive type, a string is
    its sequence of UTF-16 code units, the upstream service is a record of the
    responses it gives during one request, and a handler is a function that
    returns the trace of its effects (fetches and sleeps) with the reply it
    sends.  Exceptions are threaded by a small writer/error monad.

    Left out: logging to the console, the request headers, CORS, the
    matching of routes (with the 404 fallback) and the start of the server.
    A call records the identifiers it is made for and not the URL text; the
    conversion to text inside a URL template or a log line, which throws for
    an identifier or status that is not [printable], is therefore left out
    too, and the statements about such steps assume the values printable. *)

From Stdlib Require Import ZArith List String Ascii Lia DecimalString.
From stdpp Require Import base option list gmap.
From Equations Require Import Equations.
From Equations.Prop Require Import Logic.

Local Open Scope Z_scope.

(** ** JavaScript values *)

Module Js.

(** A JavaScript string is a sequence of UTF-16 code units.  [js] embeds an
    ASCII literal of the source. *)
Definition js (s : string) : list N := map N_of_ascii (list_ascii_of_string s).

(** The values [JSON.parse] can produce, and [undefined].  Numbers are kept as
    integers: the handlers only test them for truthiness, type and, inside a
    template literal or [join], print them. *)
#[warnings="-register-all"]
Inductive JsVal :=
| JUndefined
| JNull
| JBool (b : bool)
| JNum (n : Z)
| JStr (s : list N)
| JArr (l : list JsVal)
| JObj (m : gmap (list N) JsVal).

(** What a [throw] carries: [new Error(message)] (also the rejection of a
    promise, which [await] rethrows), or a [TypeError] raised by the engine
    when a property of [null]/[undefined] is read or a non-function is
    called; [about] names the property or method. *)
Inductive Thrown :=
| Error (message : list N)
| TypeError (about : list N).

(** [!v] is [negb (truthy v)]. *)
Definition truthy (v : JsVal) : bool :=
  match v with
  | JUndefined | JNull => false
  | JBool b => b
  | JNum n => negb (n =? 0)
  | JStr s => match s with [] => false | _ => true end
  | JArr _ | JObj _ => true
  end.

(** [typeof v === 'string'] *)
Definition is_string (v : JsVal) : bool :=
  match v with JStr _ => true | _ => false end.

Definition nullish (v : JsVal) : bool :=
  match v with JUndefined | JNull => true | _ => false end.

(** [v === 'lit'] for a string literal. *)
Definition str_is (v : JsVal) (lit : list N) : bool :=
  match v with JStr s => bool_decide (s = lit) | _ => false end.

(** [a || b] *)
Definition or_else (a b : JsVal) : JsVal := if truthy a then a else b.

(** [v.k], for the property names the handlers read ([id], [status], [role],
    [content], ...): none of them is a built-in property of strings, arrays or
    numbers, so only an object can have it. *)
Definition get (v : JsVal) (k : list N) : Thrown + JsVal :=
  match v with
  | JUndefined | JNull => inl (TypeError k)
  | JObj m => inr (default JUndefined (m !! k))
  | _ => inr JUndefined
  end.

(** [v?.k] *)
Definition get_opt (v : JsVal) (k : list N) : Thrown + JsVal :=
  if nullish v then inr JUndefined else get v k.

(** [v[0]] *)
Definition get_first (v : JsVal) : Thrown + JsVal :=
  match v with
  | JUndefined | JNull => inl (TypeError (js "0"))
  | JArr l => inr (default JUndefined (head l))
  | JStr s => inr (match s with [] => JUndefined | c :: _ => JStr [c] end)
  | JObj m => inr (default JUndefined (m !! js "0"))
  | _ => inr JUndefined
  end.

(** [l.join(sep)] on strings already converted. *)
Fixpoint join (sep : list N) (l : list (list N)) : list N :=
  match l with
  | [] => []
  | [s] => s
  | s :: rest => s ++ sep ++ join sep rest
  end.

Definition decimal (n : Z) : list N := js (NilZero.string_of_int (Z.to_int n)).

(** [String(v)], as a template literal and [Array.prototype.join] apply it.
    Inside an array [null] and [undefined] print as the empty string.
    This is the conversion on [printable] values (below); the statements
    that depend on a printed value assume it printable. *)
Fixpoint to_string (v : JsVal) : list N :=
  match v with
  | JUndefined => js "undefined"
  | JNull => js "null"
  | JBool true => js "true"
  | JBool false => js "false"
  | JNum n => decimal n
  | JStr s => s
  | JArr l =>
      join (js ",")
        (map (fun x => match x with
                       | JUndefined | JNull => []
                       | _ => to_string x
                       end) l)
  | JObj _ => js "[object Object]"
  end.

Definition element_string (v : JsVal) : list N :=
  if nullish v then [] else to_string v.

(** The integers every double holds exactly; they print in decimal. *)
Definition safe_integer (n : Z) : bool :=
  (-9007199254740991 <=? n) && (n <=? 9007199254740991).

(** The values on which [to_string] is what [String(v)] gives.  Outside of
    them the engine prints a number in another notation (1e+21) or throws a
    [TypeError]: an object parsed from JSON with a key "toString" of its own
    has no callable [toString]. *)
Fixpoint printable (v : JsVal) : bool :=
  match v with
  | JNum n => safe_integer n
  | JArr l => forallb printable l
  | JObj m => match m !! js "toString" with
              | None => true
              | Some _ => false
              end
  | _ => true
  end.

(** An object literal [{k1: v1, k2: v2, ...}]. *)
Definition object (fields : list (list N * JsVal)) : gmap (list N) JsVal :=
  list_to_map fields.

End Js.

Import Js.

(** ** Effects: fetches, sleeps and exceptions *)

(** An HTTP response of the upstream: its status and what [response.json()]
    gives, a value or a rejection with a message. *)
Record Response := { status : Z; payload : list N + JsVal }.

(** [response.ok] *)
Definition ok (r : Response) : bool := (200 <=? status r) && (status r <=? 299).

(** A [fetch] either rejects (no response at all) or resolves. *)
Inductive FetchResult :=
| Rejects (message : list N)
| Resolves (r : Response).

(** The upstream calls of the two handlers. *)
Inductive Call :=
| ChatCompletion (model : list N) (messages : list JsVal)
    (temperature max_tokens : list N)
| CreateThread
| AddMessage (thread : JsVal) (content : JsVal)
| CreateRun (thread : JsVal) (assistant_id : list N)
| GetRun (thread run : JsVal)
| ListMessages (thread : JsVal).

Definition threads_url : list N := js "https://api.openai.com/v1/threads".

Definition url (c : Call) : list N :=
  match c with
  | ChatCompletion _ _ _ _ => js "https://api.openai.com/v1/chat/completions"
  | CreateThread => threads_url
  | AddMessage t _ | ListMessages t =>
      threads_url ++ js "/" ++ to_string t ++ js "/messages"
  | CreateRun t _ => threads_url ++ js "/" ++ to_string t ++ js "/runs"
  | GetRun t r =>
      threads_url ++ js "/" ++ to_string t ++ js "/runs/" ++ to_string r
  end.

Inductive Event :=
| Fetch (c : Call) (r : FetchResult)
| Sleep (ms : Z).

(** A computation: the events it performed, then a thrown value or a result. *)
Definition M (A : Type) : Type := (list Event * (Thrown + A))%type.

#[global] Instance M_ret : MRet M := fun A a => ([], inr a).

#[global] Instance M_bind : MBind M := fun A B f m =>
  match m with
  | (t, inl e) => (t, inl e)
  | (t, inr a) => let '(t', r) := f a in (t ++ t', r)
  end.

Definition throw {A} (e : Thrown) : M A := ([], inl e).

Definition lift {A} (r : Thrown + A) : M A := ([], r).

Definition sleep (ms : Z) : M unit := ([Sleep ms], inr tt).

(** [await fetch(...)] *)
Definition fetch (c : Call) (r : FetchResult) : M Response :=
  match r with
  | Rejects m => ([Fetch c r], inl (Error m))
  | Resolves resp => ([Fetch c r], inr resp)
  end.

(** [await response.json()] *)
Definition json (r : Response) : M JsVal :=
  match payload r with
  | inl m => throw (Error m)
  | inr v => mret v
  end.

(** An array method called on something that is no array. *)
Definition as_array (v : JsVal) (method : list N) : M (list JsVal) :=
  match v with
  | JArr l => mret l
  | _ => throw (TypeError method)
  end.

(** What the handler sends: [res.status(code).json(body)]. *)
Record Reply := { code : Z; body : gmap (list N) JsVal }.

Definition trace {A} (m : M A) : list Event := fst m.
Definition outcome {A} (m : M A) : Thrown + A := snd m.

(** [process.env]: each variable is a string or absent. *)
Record Env := {
  OPENAI_API_KEY : option (list N);
  OPENAI_MODEL : option (list N);
  OPENAI_TEMPERATURE : option (list N);
  OPENAI_MAX_TOKENS : option (list N);
  OPENAI_ASSISTANT_ID : option (list N)
}.

(** [process.env.X || fallback] *)
Definition env_or (x : option (list N)) (fallback : list N) : list N :=
  match x with
  | Some (c :: s) => c :: s
  | _ => fallback
  end.

Section Boundary.

(** The wording of the engine's own [TypeError]s is not fixed by the code. *)
Variable type_error_text : list N -> list N.

(** [error.message] *)
Definition message_of (e : Thrown) : list N :=
  match e with
  | Error m => m
  | TypeError k => type_error_text k
  end.

Definition internal_error (e : Thrown) : Reply :=
  {| code := 500;
     body := object [(js "error", JStr (js "Internal server error"));
                     (js "message", JStr (message_of e))] |}.

(** [try { ... } catch (error) { res.status(500).json({...}) }] *)
Definition try_catch (m : M Reply) : list Event * Reply :=
  match m with
  | (t, inl e) => (t, internal_error e)
  | (t, inr r) => (t, r)
  end.

End Boundary.

Definition validation_reply : Reply :=
  {| code := 400;
     body := object [(js "error",
                      JStr (js "Message is required and must be a string"))] |}.

(** [!message || typeof message !== 'string'] *)
Definition invalid_message (message : JsVal) : bool :=
  negb (truthy message) || negb (is_string message).

(** ** Variant B: threads, runs and the poll loop *)

Module Assistant.

(** What the upstream answers during one request; [on_get_run k] answers the
    status fetch made when [attempts] is [k]. *)
Record Upstream := {
  on_create_thread : FetchResult;
  on_add_message : FetchResult;
  on_create_run : FetchResult;
  on_get_run : nat -> FetchResult;
  on_list_messages : FetchResult
}.

Record PollState := { runStatus : JsVal; attempts : nat }.

Definition maxAttempts : nat := 60.

(** [msg => msg.role === 'assistant'] under [Array.prototype.find] *)
Fixpoint find_assistant (l : list JsVal) : M JsVal :=
  match l with
  | [] => mret JUndefined
  | msg :: rest =>
      role ← lift (get msg (js "role"));
      if str_is role (js "assistant") then mret msg else find_assistant rest
  end.

(** [.filter(content => content.type === 'text')] *)
Fixpoint filter_text (l : list JsVal) : M (list JsVal) :=
  match l with
  | [] => mret []
  | content :: rest =>
      type ← lift (get content (js "type"));
      kept ← filter_text rest;
      mret (if str_is type (js "text") then content :: kept else kept)
  end.

(** [.map(content => content.text.value)] *)
Fixpoint map_value (l : list JsVal) : M (list JsVal) :=
  match l with
  | [] => mret []
  | content :: rest =>
      text ← lift (get content (js "text"));
      value ← lift (get text (js "value"));
      values ← map_value rest;
      mret (value :: values)
  end.

Definition open_mark : N := 0x3010.   (* U+3010, the left bracket of a marker *)
Definition close_mark : N := 0x3011.  (* U+3011, the right bracket *)

(** After an opening bracket: [[^】]*】] matches up to the first closing
    bracket; what is returned is the text after the match. *)
Fixpoint after_close (s : list N) : option (list N) :=
  match s with
  | [] => None
  | c :: rest => if N.eqb c close_mark then Some rest else after_close rest
  end.

Lemma after_close_shorter s r :
  after_close s = Some r -> (length r < length s)%nat.
Proof.
  revert r; induction s as [|c s IH]; intros r; simpl; [discriminate|].
  destruct (N.eqb c close_mark).
  - intros [= <-]. lia.
  - intros H. specialize (IH _ H). lia.
Qed.

(** The match of [/【[^】]*】/] anchored at the head of [s], if there is one:
    the text after it. *)
Definition marker_at (s : list N) : option (list N) :=
  match s with
  | c :: rest => if N.eqb c open_mark then after_close rest else None
  | [] => None
  end.

(** [text.replace(/【[^】]*】/g, '')]: scan from the left; where the pattern
    matches drop the match and go on behind it, else keep the code unit. *)
Equations? strip_citations (s : list N) : list N by wf (length s) lt :=
  strip_citations [] := [];
  strip_citations (c :: rest) with inspect (marker_at (c :: rest)) := {
    | exist _ (Some r) _ => strip_citations r;
    | exist _ None _ => c :: strip_citations rest }.
Proof.
  simpl in *. destruct (N.eqb c open_mark); [|discriminate].
  match goal with H : after_close _ = Some _ |- _ =>
    apply after_close_shorter in H end. lia.
Qed.

Definition newline : list N := [10%N].

(** Step 6: [content.filter(...).map(...).join('\n')], then the markers are
    removed. *)
Definition response_text (content : JsVal) : M (list N) :=
  segments ← as_array content (js "filter");
  texts ← filter_text segments;
  values ← map_value texts;
  let responseText := join newline (map element_string values) in
  mret (strip_citations responseText).

Section Handler.

Variable type_error_text : list N -> list N.
Variable env : Env.
Variable up : Upstream.

(** Step 1 of the handler: create a thread or use the given one. *)
Definition resolve_thread (threadId : JsVal) : M JsVal :=
  if negb (truthy threadId) then
    threadResponse ← fetch CreateThread (on_create_thread up);
    if negb (ok threadResponse) then
      throw (Error (js "Failed to create thread"))
    else
      threadData ← json threadResponse;
      lift (get threadData (js "id"))
  else mret threadId.

(** Step 2: add the user's message to the thread.  (The call stands for
    the URL [`.../threads/${currentThreadId}/messages`]; building that text
    is not modelled, see [printable].) *)
Definition add_message (thread message : JsVal) : M unit :=
  messageResponse ← fetch (AddMessage thread message) (on_add_message up);
  if negb (ok messageResponse) then
    errorData ← json messageResponse;
    throw (Error (js "Failed to add message to thread"))
  else mret tt.

(** Step 3: start the run; the result is [runData.id]. *)
Definition start_run (thread : JsVal) (assistant_id : list N) : M JsVal :=
  runResponse ← fetch (CreateRun thread assistant_id) (on_create_run up);
  if negb (ok runResponse) then
    errorData ← json runResponse;
    throw (Error (js "Failed to run assistant"))
  else
    runData ← json runResponse;
    lift (get runData (js "id")).

(** Step 4, the loop's condition and body.  (Building the URL text from the
    thread and the run and the log line from the status is not modelled, see
    [printable]; the error text is built with [to_string].) *)
Definition loop_cond (st : PollState) : bool :=
  negb (str_is (runStatus st) (js "completed"))
  && negb (str_is (runStatus st) (js "failed"))
  && (attempts st <? maxAttempts)%nat.

Definition run_ended_badly (s : JsVal) : bool :=
  str_is s (js "failed") || str_is s (js "cancelled")
  || str_is s (js "expired").

Definition loop_body (thread run : JsVal) (st : PollState) : M PollState :=
  _ ← sleep 1000;
  statusResponse ← fetch (GetRun thread run) (on_get_run up (attempts st));
  if negb (ok statusResponse) then
    throw (Error (js "Failed to get run status"))
  else
    statusData ← json statusResponse;
    status ← lift (get statusData (js "status"));
    if run_ended_badly status then
      last_error ← lift (get statusData (js "last_error"));
      why ← lift (get_opt last_error (js "message"));
      throw (Error (js "Run " ++ to_string status ++ js ": "
                    ++ to_string (or_else why (JStr (js "Unknown error")))))
    else
      mret {| runStatus := status; attempts := S (attempts st) |}.

Lemma loop_body_attempts thread run st t st' :
  loop_body thread run st = (t, inr st') -> attempts st' = S (attempts st).
Proof.
  unfold loop_body, sleep, fetch, json, lift, throw, mbind, mret, M_bind, M_ret.
  destruct (on_get_run up (attempts st)) as [m|resp]; [discriminate|].
  destruct (negb (ok resp)); [discriminate|].
  destruct (payload resp) as [m|d]; [discriminate|].
  destruct (get d (js "status")) as [e|s]; [discriminate|].
  destruct (run_ended_badly s).
  - destruct (get d (js "last_error")) as [e|le]; [discriminate|].
    destruct (get_opt le (js "message")); discriminate.
  - intros [= _ <-]. reflexivity.
Qed.

(** [while (runStatus !== 'completed' && runStatus !== 'failed' &&
    attempts < maxAttempts) { ... }].  The recursion is justified by the
    loop's own counter. *)
Equations? poll (thread run : JsVal) (st : PollState) : M PollState
  by wf (maxAttempts - attempts st)%nat lt :=
  poll thread run st with inspect (loop_cond st) := {
    | exist _ false _ => mret st;
    | exist _ true Hc with inspect (loop_body thread run st) := {
        | exist _ (t, inl e) _ => (t, inl e);
        | exist _ (t, inr st') Hb =>
            let '(t', r) := poll thread run st' in (t ++ t', r) } }.
Proof.
  apply loop_body_attempts in Hb. unfold loop_cond in Hc.
  apply andb_prop in Hc as [_ Hc]. apply Nat.ltb_lt in Hc. lia.
Qed.

(** Step 5: the newest assistant message; then its text, cleaned. *)
Definition fetch_and_extract (thread : JsVal) : M (list N) :=
  messagesResponse ← fetch (ListMessages thread) (on_list_messages up);
  if negb (ok messagesResponse) then
    throw (Error (js "Failed to get messages"))
  else
    messagesData ← json messagesResponse;
    data ← lift (get messagesData (js "data"));
    msgs ← as_array data (js "find");
    assistantMessage ← find_assistant msgs;
    if negb (truthy assistantMessage) then
      throw (Error (js "No assistant response found"))
    else
      content ← lift (get assistantMessage (js "content"));
      response_text content.

Definition after_poll (thread run : JsVal) (st : PollState) : M Reply :=
  if negb (str_is (runStatus st) (js "completed")) then
    throw (Error (js "Assistant response timeout"))
  else
    responseText ← fetch_and_extract thread;
    mret {| code := 200;
            body := object [(js "response", JStr responseText);
                            (js "threadId", thread);
                            (js "runId", run)] |}.

Definition queued : PollState :=
  {| runStatus := JStr (js "queued"); attempts := 0 |}.

Definition complete (message threadId : JsVal) (assistant_id : list N)
  : M Reply :=
  currentThreadId ← resolve_thread threadId;
  _ ← add_message currentThreadId message;
  runId ← start_run currentThreadId assistant_id;
  st ← poll currentThreadId runId queued;
  after_poll currentThreadId runId st.

Definition not_configured : Reply :=
  {| code := 500;
     body := object [(js "error", JStr (js "Assistant ID not configured"))] |}.

(** [app.post('/api/chat', ...)]; [reqBody] is [req.body], the object that
    [express.json()] parsed. *)
Definition chat (reqBody : gmap (list N) JsVal) : list Event * Reply :=
  let message := default JUndefined (reqBody !! js "message") in
  let threadId := default JUndefined (reqBody !! js "threadId") in
  try_catch type_error_text
    (if invalid_message message then mret validation_reply
     else match OPENAI_ASSISTANT_ID env with
          | Some (c :: s) => complete message threadId (c :: s)
          | _ => mret not_configured
          end).

(** [app.get('/', ...)]; [timestamp] is [new Date().toISOString()]. *)
Definition health (timestamp : list N) : Reply :=
  {| code := 200;
     body := object
       [(js "status", JStr (js "ok"));
        (js "message", JStr (js "Chat Backend API is running"));
        (js "assistant_id",
         JStr (match OPENAI_ASSISTANT_ID env with
               | Some (_ :: _) => js "configured"
               | _ => js "not configured"
               end));
        (js "timestamp", JStr timestamp)] |}.

(** The body of the [try] of [app.post('/api/thread/new', ...)]. *)
Definition create_thread : M Reply :=
  response ← fetch CreateThread (on_create_thread up);
  if negb (ok response) then
    throw (Error (js "Failed to create thread"))
  else
    data ← json response;
    id ← lift (get data (js "id"));
    mret {| code := 200; body := object [(js "threadId", id)] |}.

Definition new_thread_failed : Reply :=
  {| code := 500;
     body := object [(js "error", JStr (js "Failed to create new thread"))] |}.

(** [app.post('/api/thread/new', ...)]: whatever is thrown, the [catch]
    sends the same reply. *)
Definition new_thread : list Event * Reply :=
  match create_thread with
  | (t, inl _) => (t, new_thread_failed)
  | (t, inr r) => (t, r)
  end.

End Handler.

End Assistant.

(** ** Variant A: one completion call *)

Module Stateless.

(** The system prompt; its one non-ASCII letter is U+00FA. *)
Definition system_message : JsVal :=
  JObj (object
    [(js "role", JStr (js "system"));
     (js "content",
      JStr (js "Eres un asistente " ++ [250%N]
            ++ js "til y amigable. Respondes de manera clara y concisa."))]).

Definition user_message (message : JsVal) : JsVal :=
  JObj (object [(js "role", JStr (js "user")); (js "content", message)]).

(** [.map(msg => ({ role: msg.role, content: msg.content }))] *)
Fixpoint copy_history (l : list JsVal) : M (list JsVal) :=
  match l with
  | [] => mret []
  | msg :: rest =>
      role ← lift (get msg (js "role"));
      content ← lift (get msg (js "content"));
      copied ← copy_history rest;
      mret (JObj (object [(js "role", role); (js "content", content)])
            :: copied)
  end.

(** The array literal [messages] of the handler. *)
Definition build_messages (message conversationHistory : JsVal)
  : M (list JsVal) :=
  history ← as_array (or_else conversationHistory (JArr [])) (js "map");
  copied ← copy_history history;
  mret (system_message :: copied ++ [user_message message]).

Section Handler.

Variable type_error_text : list N -> list N.
Variable env : Env.
(** The upstream's answer to the one completion call. *)
Variable completion : FetchResult.

(** The request sent upstream.  [temperature] and [max_tokens] are kept as
    the texts given to [parseFloat] and [parseInt]; the three constant
    parameters and the headers are left out. *)
Definition completion_call (messages : list JsVal) : Call :=
  ChatCompletion (env_or (OPENAI_MODEL env) (js "gpt-4")) messages
    (env_or (OPENAI_TEMPERATURE env) (js "0.7"))
    (env_or (OPENAI_MAX_TOKENS env) (js "1000")).

Definition upstream_error (response : Response) : M Reply :=
  errorData ← json response;
  error ← lift (get errorData (js "error"));
  message ← lift (get_opt error (js "message"));
  mret {| code := status response;
          body := object
            [(js "error", JStr (js "Error from OpenAI API"));
             (js "details",
              or_else message (JStr (js "Unknown error")))] |}.

Definition success (response : Response) : M Reply :=
  data ← json response;
  choices ← lift (get data (js "choices"));
  choice ← lift (get_first choices);
  choice_message ← lift (get choice (js "message"));
  botResponse ← lift (get choice_message (js "content"));
  model ← lift (get data (js "model"));
  usage ← lift (get data (js "usage"));
  mret {| code := 200;
          body := object [(js "response", botResponse);
                          (js "model", model);
                          (js "usage", usage)] |}.

Definition complete (message conversationHistory : JsVal) : M Reply :=
  messages ← build_messages message conversationHistory;
  response ← fetch (completion_call messages) completion;
  if negb (ok response) then upstream_error response
  else success response.

(** [app.post('/api/chat', ...)]; [reqBody] is [req.body], the object that
    [express.json()] parsed. *)
Definition chat (reqBody : gmap (list N) JsVal) : list Event * Reply :=
  let message := default JUndefined (reqBody !! js "message") in
  let conversationHistory :=
    default JUndefined (reqBody !! js "conversationHistory") in
  try_catch type_error_text
    (if invalid_message message then mret validation_reply
     else complete message conversationHistory).

End Handler.

(** [app.get('/', ...)]; [timestamp] is [new Date().toISOString()]. *)
Definition health (timestamp : list N) : Reply :=
  {| code := 200;
     body := object
       [(js "status", JStr (js "ok"));
        (js "message", JStr (js "Chat Backend API is running"));
        (js "timestamp", JStr timestamp)] |}.

End Stateless.

(** * Vocabulary of the statements *)

(** Counting events in a trace. *)
Definition is_status_fetch (e : Event) : bool :=
  match e with Fetch (GetRun _ _) _ => true | _ => false end.

Definition is_create_thread (e : Event) : bool :=
  match e with Fetch CreateThread _ => true | _ => false end.

Definition is_one_second (e : Event) : bool :=
  match e with Sleep ms => ms =? 1000 | _ => false end.

Definition count (p : Event -> bool) (t : list Event) : nat :=
  length (List.filter p t).

(** What a status fetch that went well reports: the parsed body and its
    [status]. *)
Definition run_report (r : FetchResult) : option (JsVal * JsVal) :=
  match r with
  | Resolves resp =>
      if ok resp then
        match payload resp with
        | inr d => match get d (js "status") with
                   | inr s => Some (d, s)
                   | inl _ => None
                   end
        | inl _ => None
        end
      else None
  | Rejects _ => None
  end.

Definition fetched_status (r : FetchResult) : option JsVal :=
  match run_report r with Some (_, s) => Some s | None => None end.

(** A status that neither ends the loop nor fails the run. *)
Definition still_running (s : JsVal) : bool :=
  negb (str_is s (js "completed")) && negb (Assistant.run_ended_badly s).

Definition pending (r : FetchResult) : bool :=
  match run_report r with Some (_, s) => still_running s | None => false end.

(** [statusData.last_error?.message] *)
Definition last_error_message (d : JsVal) : JsVal :=
  match get d (js "last_error") with
  | inr last_error =>
      match get_opt last_error (js "message") with
      | inr m => m
      | inl _ => JUndefined
      end
  | inl _ => JUndefined
  end.

Definition run_failure_text (d s : JsVal) : list N :=
  js "Run " ++ to_string s ++ js ": "
  ++ to_string (or_else (last_error_message d) (JStr (js "Unknown error"))).

(** The events of one loop iteration, and of [n] iterations from attempt
    [k] on. *)
Definition iteration (up : Assistant.Upstream) (thread run : JsVal) (k : nat)
  : list Event :=
  [Sleep 1000; Fetch (GetRun thread run) (Assistant.on_get_run up k)].

Fixpoint iterations (up : Assistant.Upstream) (thread run : JsVal)
  (k n : nat) : list Event :=
  match n with
  | O => []
  | S n' => iteration up thread run k ++ iterations up thread run (S k) n'
  end.

(** The loop's state after [n] iterations that all went well. *)
Definition state_after (up : Assistant.Upstream) (st : Assistant.PollState)
  (n : nat) : Assistant.PollState :=
  match n with
  | O => st
  | S n' =>
      {| Assistant.runStatus :=
           default JUndefined
             (fetched_status
                (Assistant.on_get_run up (Assistant.attempts st + n')));
         Assistant.attempts := Assistant.attempts st + n |}
  end.

(** [req.body.k], [undefined] when the body has no such field. *)
Definition requested (reqBody : gmap (list N) JsVal) (k : string) : JsVal :=
  default JUndefined (reqBody !! js k).

(** The identifier a "create thread" call that went well returned. *)
Definition created_id (r : FetchResult) : option JsVal :=
  match r with
  | Resolves resp =>
      if ok resp then
        match payload resp with
        | inr d => match get d (js "id") with
                   | inr id => Some id
                   | inl _ => None
                   end
        | inl _ => None
        end
      else None
  | Rejects _ => None
  end.

(** A text contains a citation marker when some opening bracket is followed,
    anywhere later, by a closing one (the marker then ends at the first such
    closing bracket). *)
Fixpoint has_marker (s : list N) : bool :=
  match s with
  | [] => false
  | c :: rest =>
      (N.eqb c Assistant.open_mark
       && existsb (N.eqb Assistant.close_mark) rest)
      || has_marker rest
  end.




(** [v.k] where it cannot throw. *)
Definition prop (v : JsVal) (k : string) : JsVal :=
  match get v (js k) with
  | inr x => x
  | inl _ => JUndefined
  end.

(** A history entry as Variant A forwards it: [{role: msg.role, content:
    msg.content}]. *)
Definition copied (entry : JsVal) : JsVal :=
  JObj (object [(js "role", prop entry "role");
                (js "content", prop entry "content")]).

Definition not_null (v : JsVal) : bool := negb (nullish v).

(** The role of a message is one of the three recognized values. *)
Definition recognized (message : JsVal) : bool :=
  str_is (prop message "role") (js "system")
  || str_is (prop message "role") (js "user")
  || str_is (prop message "role") (js "assistant").

(** The messages of the completion calls in a trace. *)
Definition forwarded (t : list Event) : list JsVal :=
  flat_map (fun e => match e with
                     | Fetch (ChatCompletion _ messages _ _) _ => messages
                     | _ => []
                     end) t.

(** A fetch in the trace that got a response with a non-success status. *)
Definition failed_with (t : list Event) (c : Call) (resp : Response) : Prop :=
  In (Fetch c (Resolves resp)) t /\ ok resp = false.

(** [errorData.error?.message] *)
Definition upstream_message (errorData : JsVal) : JsVal :=
  match get errorData (js "error") with
  | inr error => match get_opt error (js "message") with
                 | inr m => m
                 | inl _ => JUndefined
                 end
  | inl _ => JUndefined
  end.

(** The fixed text Variant B throws when a call of that step fails. *)
Definition step_text (c : Call) : list N :=
  match c with
  | CreateThread => js "Failed to create thread"
  | AddMessage _ _ => js "Failed to add message to thread"
  | CreateRun _ _ => js "Failed to run assistant"
  | GetRun _ _ => js "Failed to get run status"
  | ListMessages _ => js "Failed to get messages"
  | ChatCompletion _ _ _ _ => []
  end.

(** The message of the error Variant B throws for a failed call: the fixed
    text, unless reading the error body (which steps 2 and 3 do before they
    throw) rejects first. *)
Definition failure_message (c : Call) (resp : Response) : list N :=
  match c, payload resp with
  | AddMessage _ _, inl m => m
  | CreateRun _ _, inl m => m
  | _, _ => step_text c
  end.

(** Variant A: what is sent back when the completion call failed. *)
Definition relayed_failure (type_error_text : list N -> list N)
  (resp : Response) : Reply :=
  match payload resp with
  | inl m => internal_error type_error_text (Error m)
  | inr errorData =>
      if nullish errorData
      then internal_error type_error_text (TypeError (js "error"))
      else {| code := status resp;
              body := object
                [(js "error", JStr (js "Error from OpenAI API"));
                 (js "details",
                  or_else (upstream_message errorData)
                    (JStr (js "Unknown error")))] |}
  end.

(** A computation of Variant B that, whenever one of its fetches got a
    non-success response, threw the error assigned to that call. *)
Definition fails_well {A} (m : M A) : Prop :=
  forall c resp,
    failed_with (trace m) c resp ->
    outcome m = inl (Error (failure_message c resp)).

(** Steps 1 to 3 of Variant B together: the thread and the run. *)
Definition prepare (up : Assistant.Upstream) (message threadId : JsVal)
  (assistant_id : list N) : M (JsVal * JsVal) :=
  thread ← Assistant.resolve_thread up threadId;
  _ ← Assistant.add_message up thread message;
  run ← Assistant.start_run up thread assistant_id;
  mret (thread, run).

(** ** Vocabulary of the further properties *)

Definition is_fetch (e : Event) : bool :=
  match e with Fetch _ _ => true | _ => false end.

(** The message of the error a fetch ends in: that of the rejection, or of
    the error Variant B throws for a non-success response; [None] for a
    response with a success status. *)
Definition fetch_error (c : Call) (r : FetchResult) : option (list N) :=
  match r with
  | Rejects m => Some m
  | Resolves resp => if ok resp then None else Some (failure_message c resp)
  end.

(** A computation that stops at the first fetch that went wrong: it throws
    the error of that fetch, and that fetch is the last event. *)
Definition halts_on_failure {A} (m : M A) : Prop :=
  forall c r msg,
    In (Fetch c r) (trace m) ->
    fetch_error c r = Some msg ->
    outcome m = inl (Error msg) /\ last (trace m) = Some (Fetch c r).

(** [data.choices[0].message.content], when it can be read. *)
Definition chosen_content (data : JsVal) : option JsVal :=
  match get data (js "choices") with
  | inr choices =>
      match get_first choices with
      | inr choice =>
          match get choice (js "message") with
          | inr message =>
              match get message (js "content") with
              | inr content => Some content
              | inl _ => None
              end
          | inl _ => None
          end
      | inl _ => None
      end
  | inl _ => None
  end.

(** The history can be mapped: it is falsy, or an array without [null]. *)
Definition history_readable (conversationHistory : JsVal) : bool :=
  match or_else conversationHistory (JArr []) with
  | JArr h => forallb not_null h
  | _ => false
  end.

(** A thread message is not [null] and its role is not "assistant". *)
Definition not_assistant (msg : JsVal) : bool :=
  not_null msg && negb (str_is (prop msg "role") (js "assistant")).

(** The message is a non-empty string. *)
Definition acceptable (message : JsVal) : bool :=
  match message with
  | JStr (_ :: _) => true
  | _ => false
  end.

(** What a response with a success status and a body that parsed holds. *)
Definition parsed (r : FetchResult) : option JsVal :=
  match r with
  | Resolves resp =>
      if ok resp then
        match payload resp with
        | inr d => Some d
        | inl _ => None
        end
      else None
  | Rejects _ => None
  end.

(** As many sleeps of one second as status fetches. *)
Definition paced {A} (m : M A) : Prop :=
  count is_one_second (trace m) = count is_status_fetch (trace m).

(** A status fetch after which the loop goes on, also in the log line
    [`Run status: ${runStatus} ...`]: the status is neither "completed" nor
    bad, and it can be printed. *)
Definition keeps_polling (r : FetchResult) : bool :=
  match run_report r with
  | Some (_, s) => still_running s && printable s
  | None => false
  end.

(** ** Concrete requests and upstreams, for the examples *)

Definition answers (code : Z) (v : JsVal) : FetchResult :=
  Resolves {| status := code; payload := inr v |}.

Definition run_in (s : string) : FetchResult :=
  answers 200 (JObj (object [(js "status", JStr (js s))])).

Definition with_id (s : string) : JsVal :=
  JObj (object [(js "id", JStr (js s))]).

Definition text_segment (s : list N) : JsVal :=
  JObj (object [(js "type", JStr (js "text"));
                (js "text", JObj (object [(js "value", JStr s)]))]).

Definition assistant_says (segments : list JsVal) : JsVal :=
  JObj (object [(js "data",
    JArr [JObj (object [(js "role", JStr (js "assistant"));
                        (js "content", JArr segments)])])]).

Definition paris_cited : list N :=
  js "Paris is the capital" ++ [Assistant.open_mark] ++ js "4:0" ++ [0x2020%N]
  ++ js "source" ++ [Assistant.close_mark] ++ js ".".

(** An upstream where every step but the status fetches goes well. *)
Definition upstream_with (statuses : nat -> FetchResult) : Assistant.Upstream :=
  {| Assistant.on_create_thread := answers 200 (with_id "thread_1");
     Assistant.on_add_message := answers 200 (JObj ∅);
     Assistant.on_create_run := answers 200 (with_id "run_1");
     Assistant.on_get_run := statuses;
     Assistant.on_list_messages :=
       answers 200 (assistant_says [text_segment paris_cited]) |}.

Definition four_statuses (k : nat) : FetchResult :=
  match k with
  | 0%nat => run_in "queued"
  | 1%nat | 2%nat => run_in "in_progress"
  | _ => run_in "completed"
  end.

Definition fails_third (k : nat) : FetchResult :=
  match k with
  | 2%nat =>
      answers 200
        (JObj (object
           [(js "status", JStr (js "failed"));
            (js "last_error",
             JObj (object [(js "message", JStr (js "rate limited"))]))]))
  | _ => run_in "in_progress"
  end.

Definition example_env : Env :=
  {| OPENAI_API_KEY := Some (js "sk-test");
     OPENAI_MODEL := None;
     OPENAI_TEMPERATURE := None;
     OPENAI_MAX_TOKENS := None;
     OPENAI_ASSISTANT_ID := Some (js "asst_1") |}.

Definition says (message : string) : gmap (list N) JsVal :=
  object [(js "message", JStr (js message))].

Definition says_in (message : string) (threadId : JsVal)
  : gmap (list N) JsVal :=
  object [(js "message", JStr (js message)); (js "threadId", threadId)].

Definition plain (k : list N) : list N := k.

Definition history_of (entries : list JsVal) (message : string)
  : gmap (list N) JsVal :=
  object [(js "message", JStr (js message));
          (js "conversationHistory", JArr entries)].

Definition turn (role content : string) : JsVal :=
  JObj (object [(js "role", JStr (js role));
                (js "content", JStr (js content))]).

Definition upstream_says (code : Z) (message : string) : FetchResult :=
  answers code
    (JObj (object [(js "error",
                    JObj (object [(js "message", JStr (js message))]))])).

(** As [upstream_with four_statuses], but starting the run is refused. *)
Definition run_refused : Assistant.Upstream :=
  {| Assistant.on_create_thread := answers 200 (with_id "thread_1");
     Assistant.on_add_message := answers 200 (JObj ∅);
     Assistant.on_create_run := upstream_says 404 "No assistant found";
     Assistant.on_get_run := four_statuses;
     Assistant.on_list_messages := answers 200 (assistant_says []) |}.

(** A thread message with one text segment, and an upstream whose listing
    holds the given messages. *)
Definition thread_message (role text : string) : JsVal :=
  JObj (object [(js "role", JStr (js role));
                (js "content", JArr [text_segment (js text)])]).

Definition listing (messages : list JsVal) : Assistant.Upstream :=
  {| Assistant.on_create_thread := answers 200 (with_id "thread_1");
     Assistant.on_add_message := answers 200 (JObj ∅);
     Assistant.on_create_run := answers 200 (with_id "run_1");
     Assistant.on_get_run := four_statuses;
     Assistant.on_list_messages :=
       answers 200 (JObj (object [(js "data", JArr messages)])) |}.

Definition one_choice : JsVal :=
  JObj (object
    [(js "model", JStr (js "gpt-4"));
     (js "choices",
      JArr [JObj (object [(js "message", turn "assistant" "buenas")])])]).

Definition no_choice : JsVal := JObj (object [(js "choices", JArr [])]).

Definition cancelled_second (k : nat) : FetchResult :=
  match k with
  | 1%nat => run_in "cancelled"
  | _ => run_in "queued"
  end.

(** * Properties *)

(** ** The monad *)

Lemma bind_returns {A B} (m : M A) (f : A -> M B) t a :
  m = (t, inr a) -> m ≫= f = (t ++ trace (f a), outcome (f a)).
Proof.
  intros ->. unfold mbind, M_bind, trace, outcome.
  destruct (f a). reflexivity.
Qed.

Lemma trace_bind {A B} (m : M A) (f : A -> M B) :
  trace (m ≫= f) =
  trace m ++ match outcome m with inl _ => [] | inr a => trace (f a) end.
Proof.
  destruct m as [t [e|a]]; unfold mbind, M_bind, trace; simpl.
  - symmetry. apply app_nil_r.
  - destruct (f a). reflexivity.
Qed.

Lemma lift_bind {A B} (r : Thrown + A) (f : A -> M B) :
  lift r ≫= f = match r with inl e => throw e | inr a => f a end.
Proof.
  destruct r as [e|a]; unfold lift, throw, mbind, M_bind; [reflexivity|].
  destruct (f a). reflexivity.
Qed.

Lemma ret_bind {A B} (a : A) (f : A -> M B) : mret a ≫= f = f a.
Proof. unfold mret, M_ret, mbind, M_bind. destruct (f a). reflexivity. Qed.

Lemma count_app p t u : count p (t ++ u) = (count p t + count p u)%nat.
Proof. unfold count. rewrite List.filter_app, length_app. reflexivity. Qed.

(** ** Validation (both variants) *)

Lemma invalid_when_missing_or_not_string (reqBody : gmap (list N) JsVal) :
  (reqBody !! js "message" = None
   \/ exists v, reqBody !! js "message" = Some v /\ is_string v = false) ->
  invalid_message (default JUndefined (reqBody !! js "message")) = true.
Proof.
  intros [-> | (v & -> & Hv)]; [reflexivity|].
  unfold invalid_message. simpl. rewrite Hv. apply orb_true_r.
Qed.

(** C5.  A request whose body has no [message], or whose [message] is not a
    string, is answered with status 400 and the validation error by both
    variants, and the trace of the handler is empty: no upstream call was
    made. *)
Theorem invalid_message_gets_400
  (type_error_text : list N -> list N) (env : Env)
  (completion : FetchResult) (up : Assistant.Upstream)
  (reqBody : gmap (list N) JsVal) :
  (reqBody !! js "message" = None
   \/ exists v, reqBody !! js "message" = Some v /\ is_string v = false) ->
  Stateless.chat type_error_text env completion reqBody = ([], validation_reply)
  /\ Assistant.chat type_error_text env up reqBody = ([], validation_reply)
  /\ code validation_reply = 400
  /\ body validation_reply !! js "error"
     = Some (JStr (js "Message is required and must be a string")).
Proof.
  intros H. apply invalid_when_missing_or_not_string in H.
  unfold Stateless.chat, Assistant.chat. rewrite H.
  repeat split; reflexivity.
Qed.

Lemma invalid_message_gets_400_witness :
  Stateless.chat plain example_env (Rejects [])
    (object [(js "message", JNum 5)]) = ([], validation_reply)
  /\ Assistant.chat plain example_env (upstream_with four_statuses)
       (object [(js "message", JNum 5)]) = ([], validation_reply)
  /\ code validation_reply = 400
  /\ body validation_reply !! js "error"
     = Some (JStr (js "Message is required and must be a string")).
Proof.
  apply (invalid_message_gets_400 plain example_env (Rejects [])
           (upstream_with four_statuses) (object [(js "message", JNum 5)])).
  right. exists (JNum 5). split; reflexivity.
Defined.

(** ** Reading properties *)

Lemma get_total v k : nullish v = false -> exists x, get v k = inr x.
Proof. destruct v; simpl; try discriminate; eauto. Qed.

Lemma get_inr_nullish v k x : get v k = inr x -> nullish v = false.
Proof. destruct v; simpl; try discriminate; reflexivity. Qed.

Lemma get_opt_total v k : exists x, get_opt v k = inr x.
Proof.
  unfold get_opt. destruct (nullish v) eqn:E; [eauto|].
  apply get_total. exact E.
Qed.

(** ** The poll loop *)

Section PollLoop.
Import Assistant.
Variable up : Upstream.
Variables thread run : JsVal.

Lemma loop_body_trace st :
  trace (loop_body up thread run st) = iteration up thread run (attempts st).
Proof.
  unfold loop_body, iteration, sleep, fetch, json, lift, throw, trace.
  unfold mbind, mret, M_bind, M_ret.
  destruct (on_get_run up (attempts st)) as [m|resp]; [reflexivity|].
  destruct (negb (ok resp)); [reflexivity|].
  destruct (payload resp) as [m|d]; [reflexivity|].
  destruct (get d (js "status")) as [e|s]; [reflexivity|].
  destruct (run_ended_badly s); [|reflexivity].
  destruct (get d (js "last_error")) as [e|le]; [reflexivity|].
  destruct (get_opt le (js "message")); reflexivity.
Qed.

Lemma loop_body_report st d s :
  run_report (on_get_run up (attempts st)) = Some (d, s) ->
  loop_body up thread run st =
  (iteration up thread run (attempts st),
   if run_ended_badly s then inl (Error (run_failure_text d s))
   else inr {| runStatus := s; attempts := S (attempts st) |}).
Proof.
  unfold run_report, loop_body, iteration, run_failure_text, last_error_message.
  unfold sleep, fetch, json, lift, throw, mbind, mret, M_bind, M_ret.
  destruct (on_get_run up (attempts st)) as [m|resp]; [discriminate|].
  destruct (ok resp); [|discriminate]. simpl.
  destruct (payload resp) as [m|d']; [discriminate|].
  destruct (get d' (js "status")) as [e|s'] eqn:Hs; [discriminate|].
  intros [= -> ->].
  destruct (run_ended_badly s); [|reflexivity].
  destruct (get_total d (js "last_error") (get_inr_nullish _ _ _ Hs))
    as [le ->].
  destruct (get_opt_total le (js "message")) as [m ->]. reflexivity.
Qed.

Lemma loop_body_status st t st' :
  loop_body up thread run st = (t, inr st') ->
  run_ended_badly (runStatus st') = false.
Proof.
  unfold loop_body, sleep, fetch, json, lift, throw, mbind, mret, M_bind, M_ret.
  destruct (on_get_run up (attempts st)) as [m|resp]; [discriminate|].
  destruct (negb (ok resp)); [discriminate|].
  destruct (payload resp) as [m|d]; [discriminate|].
  destruct (get d (js "status")) as [e|s]; [discriminate|].
  destruct (run_ended_badly s) eqn:Hs.
  - destruct (get d (js "last_error")) as [e|le]; [discriminate|].
    destruct (get_opt le (js "message")); discriminate.
  - intros [= _ <-]. exact Hs.
Qed.

Lemma poll_step st :
  poll up thread run st =
  if loop_cond st
  then st' ← loop_body up thread run st; poll up thread run st'
  else mret st.
Proof.
  funelim (poll up thread run st).
  - rewrite e. reflexivity.
  - rewrite Hc. unfold mbind, M_bind. rewrite e0. reflexivity.
  - rewrite Hc. unfold mbind, M_bind. rewrite Hb. reflexivity.
Qed.

Lemma loop_cond_attempts st :
  loop_cond st = true -> (attempts st < maxAttempts)%nat.
Proof.
  unfold loop_cond. intros H. apply andb_prop in H as [_ H].
  apply Nat.ltb_lt in H. exact H.
Qed.

(** The loop runs some [n] iterations, each a sleep and then a fetch, and
    [n] is bounded by what is left of the attempt budget.  A state it hands
    on falsifies the loop's condition and, unless it is the initial one,
    carries a status that is none of the three bad ones. *)
Lemma poll_shape st :
  exists n,
    (n <= maxAttempts - attempts st)%nat
    /\ trace (poll up thread run st) = iterations up thread run (attempts st) n
    /\ forall st', outcome (poll up thread run st) = inr st' ->
         attempts st' = (attempts st + n)%nat
         /\ loop_cond st' = false
         /\ (st' = st \/ run_ended_badly (runStatus st') = false).
Proof.
  remember (maxAttempts - attempts st)%nat as m eqn:Hm.
  revert st Hm. induction m as [|m IH]; intros st Hm;
    rewrite poll_step; destruct (loop_cond st) eqn:Hc;
    try (apply loop_cond_attempts in Hc; lia);
    try (exists 0%nat; split; [lia|]; split; [reflexivity|];
         intros st' [= <-]; split; [lia|]; split; [assumption|];
         left; reflexivity).
  pose proof (loop_body_trace st) as Hbt.
  destruct (loop_body up thread run st) as [t [e|st1]] eqn:Hb;
    simpl in Hbt; subst t.
  - exists 1%nat. split; [lia|]. split; [reflexivity|]. discriminate.
  - pose proof (loop_body_attempts _ _ _ _ _ _ Hb) as Ha.
    pose proof (loop_body_status _ _ _ Hb) as Hs.
    destruct (IH st1 ltac:(lia)) as (n & Hn & Ht & Hout).
    exists (S n). rewrite (bind_returns _ _ _ _ eq_refl).
    unfold trace, outcome in *. simpl. rewrite Ht, Ha.
    split; [lia|]. split; [reflexivity|].
    intros st' H. apply Hout in H as (H1 & H2 & [-> | H3]).
    + split; [lia|]. split; [assumption|]. right. exact Hs.
    + split; [lia|]. split; [assumption|]. right. exact H3.
Qed.

Lemma status_fetches_iterations k n :
  count is_status_fetch (iterations up thread run k n) = n.
Proof.
  revert k. induction n as [|n IH]; intros k; [reflexivity|].
  specialize (IH (S k)). unfold count in *. simpl. rewrite IH. reflexivity.
Qed.

Lemma sleeps_iterations k n :
  count is_one_second (iterations up thread run k n) = n.
Proof.
  revert k. induction n as [|n IH]; intros k; [reflexivity|].
  specialize (IH (S k)). unfold count in *. simpl. rewrite IH. reflexivity.
Qed.

Lemma creates_iterations k n :
  count is_create_thread (iterations up thread run k n) = 0%nat.
Proof.
  revert k. induction n as [|n IH]; intros k; [reflexivity|].
  specialize (IH (S k)). unfold count in *. simpl. exact IH.
Qed.

Lemma iterations_snoc k n :
  iterations up thread run k (S n)
  = iterations up thread run k n ++ iteration up thread run (k + n).
Proof.
  revert k. induction n as [|n IH]; intros k.
  - simpl. rewrite Nat.add_0_r. reflexivity.
  - change (iterations up thread run k (S (S n)))
      with (iteration up thread run k ++ iterations up thread run (S k) (S n)).
    rewrite IH. change (iterations up thread run k (S n))
      with (iteration up thread run k ++ iterations up thread run (S k) n).
    rewrite <- app_assoc. replace (S k + n)%nat with (k + S n)%nat by lia.
    reflexivity.
Qed.

End PollLoop.

Section PollRuns.
Import Assistant.
Variable up : Upstream.
Variables thread run : JsVal.

Lemma still_running_not_bad s :
  still_running s = true ->
  str_is s (js "completed") = false /\ run_ended_badly s = false.
Proof.
  unfold still_running. intros H. apply andb_prop in H as [H1 H2].
  apply negb_true_iff in H1, H2. split; assumption.
Qed.

Lemma still_running_cond s k :
  still_running s = true -> (k < maxAttempts)%nat ->
  loop_cond {| runStatus := s; attempts := k |} = true.
Proof.
  intros H Hk. apply still_running_not_bad in H as [H1 H2].
  unfold loop_cond, run_ended_badly in *. simpl. rewrite H1.
  destruct (str_is s (js "failed")); [discriminate|].
  apply Nat.ltb_lt in Hk. rewrite Hk. reflexivity.
Qed.

Lemma pending_report r :
  pending r = true ->
  exists d s, run_report r = Some (d, s) /\ still_running s = true
              /\ fetched_status r = Some s.
Proof.
  unfold pending, fetched_status.
  destruct (run_report r) as [[d s]|]; [|discriminate].
  intros H. exists d, s. repeat split. exact H.
Qed.

(** [n] iterations that each fetch a status which is neither completed nor
    bad are all run, and the loop goes on from the state they leave. *)
Lemma poll_skip n : forall st,
  still_running (runStatus st) = true ->
  (attempts st + n <= maxAttempts)%nat ->
  (forall i, (i < n)%nat -> pending (on_get_run up (attempts st + i)) = true) ->
  poll up thread run st =
  (iterations up thread run (attempts st) n
     ++ trace (poll up thread run (state_after up st n)),
   outcome (poll up thread run (state_after up st n))).
Proof.
  induction n as [|n IH]; intros [s k] Hrun Hle Hp; simpl in *.
  - destruct (poll up thread run _); reflexivity.
  - destruct (pending_report _ (Hp 0%nat ltac:(lia)))
      as (d0 & s0 & Hrep & Hs0 & Hf).
    rewrite Nat.add_0_r in Hrep, Hf.
    rewrite poll_step, (still_running_cond _ _ Hrun) by lia.
    rewrite (loop_body_report up thread run {| runStatus := s; attempts := k |}
               _ _ Hrep).
    destruct (still_running_not_bad _ Hs0) as [_ ->].
    rewrite (bind_returns _ _ _ _ eq_refl). simpl attempts.
    rewrite (IH {| runStatus := s0; attempts := S k |} Hs0); simpl attempts.
    + assert (state_after up {| runStatus := s0; attempts := S k |} n
              = state_after up {| runStatus := s; attempts := k |} (S n))
        as ->.
      { destruct n as [|n']; simpl.
        - rewrite Nat.add_0_r, Hf. simpl. f_equal. lia.
        - replace (k + S n')%nat with (S (k + n')) by lia.
          f_equal. lia. }
      unfold trace, outcome. simpl. reflexivity.
    + lia.
    + intros i Hi. replace (S k + i)%nat with (k + S i)%nat by lia.
      apply Hp. lia.
Qed.

End PollRuns.

Section PollEnds.
Import Assistant.
Variable up : Upstream.
Variables thread run : JsVal.

Lemma fetched_pending r s :
  fetched_status r = Some s -> still_running s = true -> pending r = true.
Proof.
  unfold fetched_status, pending.
  destruct (run_report r) as [[d s']|]; [|discriminate].
  intros [= ->]. trivial.
Qed.

Lemma fetched_report r s :
  fetched_status r = Some s -> exists d, run_report r = Some (d, s).
Proof.
  unfold fetched_status.
  destruct (run_report r) as [[d s']|]; [|discriminate].
  intros [= ->]. exists d. reflexivity.
Qed.

Lemma state_after_running st n :
  still_running (runStatus st) = true ->
  (forall i, (i < n)%nat -> pending (on_get_run up (attempts st + i)) = true) ->
  still_running (runStatus (state_after up st n)) = true
  /\ attempts (state_after up st n) = (attempts st + n)%nat.
Proof.
  intros Hrun Hp. destruct n as [|n]; simpl.
  - split; [assumption|lia].
  - split; [|reflexivity].
    destruct (pending_report _ (Hp n ltac:(lia))) as (d & s & _ & Hs & ->).
    exact Hs.
Qed.

Lemma completed_stops s k :
  str_is s (js "completed") = true ->
  loop_cond {| runStatus := s; attempts := k |} = false.
Proof. intros H. unfold loop_cond. simpl. rewrite H. reflexivity. Qed.

(** After [n] fetches of a status that lets the loop go on, a fetch of
    "completed" or of a bad status is the last one: the loop has run [n + 1]
    iterations and either hands on the completed state or throws. *)
Lemma poll_last n st d s :
  still_running (runStatus st) = true ->
  (attempts st + n < maxAttempts)%nat ->
  (forall i, (i < n)%nat -> pending (on_get_run up (attempts st + i)) = true) ->
  run_report (on_get_run up (attempts st + n)) = Some (d, s) ->
  str_is s (js "completed") = true \/ run_ended_badly s = true ->
  poll up thread run st =
  (iterations up thread run (attempts st) (S n),
   if run_ended_badly s then inl (Error (run_failure_text d s))
   else inr {| runStatus := s; attempts := S (attempts st + n) |}).
Proof.
  intros Hrun Hlt Hp Hrep Hend.
  rewrite (poll_skip up thread run n st Hrun) by (lia || assumption).
  destruct (state_after_running st n Hrun Hp) as [Hrun' Ha].
  destruct (state_after up st n) as [sn kn]. simpl in Hrun', Ha. subst kn.
  rewrite poll_step, (still_running_cond _ _ Hrun') by lia.
  rewrite (loop_body_report up thread run
             {| runStatus := sn; attempts := attempts st + n |} _ _ Hrep).
  rewrite iterations_snoc. simpl attempts.
  destruct (run_ended_badly s) eqn:Hbad.
  - reflexivity.
  - destruct Hend as [Hc|]; [|discriminate].
    rewrite (bind_returns _ _ _ _ eq_refl).
    rewrite poll_step, (completed_stops _ _ Hc).
    unfold trace, outcome. simpl. reflexivity.
Qed.


End PollEnds.

(** ** Traces of the steps *)

Lemma count_bind {A B} p (m : M A) (f : A -> M B) :
  count p (trace (m ≫= f))
  = (count p (trace m)
     + match outcome m with
       | inl _ => 0
       | inr a => count p (trace (f a))
       end)%nat.
Proof.
  rewrite trace_bind, count_app. destruct (outcome m); reflexivity.
Qed.

Lemma count_bind_le {A B} p (m : M A) (f : A -> M B) a b :
  (count p (trace m) <= a)%nat ->
  (forall x, (count p (trace (f x)) <= b)%nat) ->
  (count p (trace (m ≫= f)) <= a + b)%nat.
Proof.
  intros Hm Hf. rewrite count_bind. destruct (outcome m) as [e|x].
  - lia.
  - specialize (Hf x). lia.
Qed.

Lemma outcome_bind_inr {A B} (m : M A) (f : A -> M B) b :
  outcome (m ≫= f) = inr b ->
  exists a, outcome m = inr a /\ outcome (f a) = inr b.
Proof.
  destruct m as [t [e|a]]; unfold mbind, M_bind, outcome; simpl.
  - discriminate.
  - intros H. exists a. split; [reflexivity|].
    destruct (f a) as [t' r]. exact H.
Qed.

Lemma pure_bind {A B} (m : M A) (f : A -> M B) :
  trace m = [] -> (forall a, trace (f a) = []) -> trace (m ≫= f) = [].
Proof.
  intros Hm Hf. rewrite trace_bind, Hm. destruct (outcome m); [reflexivity|].
  apply Hf.
Qed.

Lemma trace_try_catch text (m : M Reply) : fst (try_catch text m) = trace m.
Proof. destruct m as [t [e|r]]; reflexivity. Qed.

Lemma reply_try_catch text (m : M Reply) :
  snd (try_catch text m)
  = match outcome m with inl e => internal_error text e | inr r => r end.
Proof. destruct m as [t [e|r]]; reflexivity. Qed.

Section StepTraces.
Import Assistant.
Variable up : Upstream.

Lemma find_assistant_pure l : trace (find_assistant l) = [].
Proof.
  induction l as [|msg rest IH]; [reflexivity|].
  cbn [find_assistant]. apply pure_bind; [reflexivity|].
  intros role. destruct (str_is role (js "assistant")); [reflexivity|exact IH].
Qed.

Lemma filter_text_pure l : trace (filter_text l) = [].
Proof.
  induction l as [|c rest IH]; [reflexivity|].
  cbn [filter_text]. apply pure_bind; [reflexivity|]. intros type.
  apply pure_bind; [exact IH|]. reflexivity.
Qed.

Lemma map_value_pure l : trace (map_value l) = [].
Proof.
  induction l as [|c rest IH]; [reflexivity|].
  cbn [map_value]. apply pure_bind; [reflexivity|]. intros text.
  apply pure_bind; [reflexivity|]. intros value.
  apply pure_bind; [exact IH|]. reflexivity.
Qed.

Lemma as_array_pure v method : trace (as_array v method) = [].
Proof. destruct v; reflexivity. Qed.

Lemma response_text_pure content : trace (response_text content) = [].
Proof.
  unfold response_text. apply pure_bind; [apply as_array_pure|]. intros segs.
  apply pure_bind; [apply filter_text_pure|]. intros texts.
  apply pure_bind; [apply map_value_pure|]. reflexivity.
Qed.

Lemma json_pure r : trace (json r) = [].
Proof. unfold json. destruct (payload r); reflexivity. Qed.

Lemma trace_fetch c r : trace (fetch c r) = [Fetch c r].
Proof. destruct r; reflexivity. Qed.

(** A fetch followed by a continuation that performs no event. *)
Lemma trace_fetch_then {B} c r (f : Response -> M B) :
  (forall resp, trace (f resp) = []) ->
  trace (fetch c r ≫= f) = [Fetch c r].
Proof.
  intros Hf. rewrite trace_bind, trace_fetch.
  destruct (outcome (fetch c r)); [reflexivity|]. rewrite Hf. reflexivity.
Qed.

Lemma resolve_thread_trace threadId :
  trace (resolve_thread up threadId)
  = if truthy threadId then []
    else [Fetch CreateThread (on_create_thread up)].
Proof.
  unfold resolve_thread. destruct (truthy threadId); [reflexivity|].
  cbn [negb]. apply trace_fetch_then. intros resp.
  destruct (negb (ok resp)); [reflexivity|].
  apply pure_bind; [apply json_pure|]. reflexivity.
Qed.

Lemma add_message_trace thread message :
  trace (add_message up thread message)
  = [Fetch (AddMessage thread message) (on_add_message up)].
Proof.
  unfold add_message. apply trace_fetch_then. intros resp.
  destruct (negb (ok resp)); [|reflexivity].
  apply pure_bind; [apply json_pure|]. reflexivity.
Qed.

Lemma start_run_trace thread assistant_id :
  trace (start_run up thread assistant_id)
  = [Fetch (CreateRun thread assistant_id) (on_create_run up)].
Proof.
  unfold start_run. apply trace_fetch_then. intros resp.
  destruct (negb (ok resp));
    (apply pure_bind; [apply json_pure|]); reflexivity.
Qed.

Lemma fetch_and_extract_trace thread :
  trace (fetch_and_extract up thread)
  = [Fetch (ListMessages thread) (on_list_messages up)].
Proof.
  unfold fetch_and_extract. apply trace_fetch_then. intros resp.
  destruct (negb (ok resp)); [reflexivity|].
  apply pure_bind; [apply json_pure|]. intros d.
  apply pure_bind; [reflexivity|]. intros data.
  apply pure_bind; [apply as_array_pure|]. intros msgs.
  apply pure_bind; [apply find_assistant_pure|]. intros m.
  destruct (negb (truthy m)); [reflexivity|].
  apply pure_bind; [reflexivity|]. intros content.
  apply response_text_pure.
Qed.

Lemma after_poll_trace thread run st :
  trace (after_poll up thread run st)
  = if str_is (runStatus st) (js "completed")
    then [Fetch (ListMessages thread) (on_list_messages up)]
    else [].
Proof.
  unfold after_poll. destruct (str_is (runStatus st) (js "completed"));
    [|reflexivity].
  cbn [negb]. rewrite trace_bind, fetch_and_extract_trace.
  destruct (outcome (fetch_and_extract up thread)); reflexivity.
Qed.

(** No step but the loop fetches a run status, and the loop does so at most
    [maxAttempts] times. *)
Lemma status_fetches_poll thread run st :
  (count is_status_fetch (trace (poll up thread run st))
   <= maxAttempts - attempts st)%nat.
Proof.
  destruct (poll_shape up thread run st) as (n & Hn & -> & _).
  rewrite status_fetches_iterations. exact Hn.
Qed.

Lemma status_fetches_complete message threadId assistant_id :
  (count is_status_fetch
     (trace (Assistant.complete up message threadId assistant_id))
   <= maxAttempts)%nat.
Proof.
  unfold Assistant.complete.
  change maxAttempts with (0 + (0 + (0 + (maxAttempts + 0))))%nat.
  apply count_bind_le.
  { rewrite resolve_thread_trace. destruct (truthy threadId); reflexivity. }
  intros thread. apply count_bind_le.
  { rewrite add_message_trace. reflexivity. }
  intros _. apply count_bind_le.
  { rewrite start_run_trace. reflexivity. }
  intros run. apply count_bind_le.
  { pose proof (status_fetches_poll thread run queued) as H.
    unfold queued in H at 2. cbn [attempts] in H. lia. }
  intros st. rewrite after_poll_trace.
  destruct (str_is (runStatus st) (js "completed")); reflexivity.
Qed.

End StepTraces.

(** ** The handler around the loop *)

Section AroundTheLoop.
Import Assistant.
Variable type_error_text : list N -> list N.
Variable env : Env.
Variable up : Upstream.
Variable reqBody : gmap (list N) JsVal.
Variables (c : N) (a : list N) (t0 : list Event) (thread run : JsVal).
Hypothesis valid : invalid_message (requested reqBody "message") = false.
Hypothesis configured : OPENAI_ASSISTANT_ID env = Some (c :: a).
Hypothesis prepared :
  prepare up (requested reqBody "message") (requested reqBody "threadId")
    (c :: a) = (t0, inr (thread, run)).

Lemma chat_reaches_poll :
  Assistant.chat type_error_text env up reqBody =
  try_catch type_error_text
    (let m := st ← poll up thread run queued; after_poll up thread run st in
     (t0 ++ trace m, outcome m)).
Proof.
  unfold Assistant.chat. fold (requested reqBody "message").
  fold (requested reqBody "threadId"). rewrite valid, configured.
  f_equal. revert prepared. unfold prepare, Assistant.complete.
  destruct (resolve_thread up _) as [t1 [e|tid]]; [discriminate|].
  rewrite !(bind_returns _ _ _ _ eq_refl).
  destruct (add_message up tid _) as [t2 [e|[]]]; [discriminate|].
  rewrite !(bind_returns _ _ _ _ eq_refl).
  destruct (start_run up tid _) as [t3 [e|rid]]; [discriminate|].
  rewrite !(bind_returns _ _ _ _ eq_refl).
  unfold trace, outcome. simpl. intros [= <- <- <-].
  rewrite app_nil_r, <- !app_assoc. reflexivity.
Qed.

Lemma chat_when_poll_throws t e :
  poll up thread run queued = (t, inl e) ->
  Assistant.chat type_error_text env up reqBody
  = (t0 ++ t, internal_error type_error_text e).
Proof. intros H. rewrite chat_reaches_poll, H. reflexivity. Qed.

Lemma chat_when_poll_returns t st :
  poll up thread run queued = (t, inr st) ->
  Assistant.chat type_error_text env up reqBody
  = try_catch type_error_text
      (t0 ++ t ++ trace (after_poll up thread run st),
       outcome (after_poll up thread run st)).
Proof.
  intros H. rewrite chat_reaches_poll, H.
  rewrite (bind_returns _ _ _ _ eq_refl). reflexivity.
Qed.

End AroundTheLoop.

(** ** The claims about the poll loop *)

Lemma poll_exit_not_completed up thread run t st :
  Assistant.poll up thread run Assistant.queued = (t, inr st) ->
  str_is (Assistant.runStatus st) (js "completed") = false ->
  Assistant.attempts st = Assistant.maxAttempts
  /\ t = iterations up thread run 0 Assistant.maxAttempts.
Proof.
  intros Hp Hc.
  destruct (poll_shape up thread run Assistant.queued) as (n & Hn & Ht & Hout).
  rewrite Hp in Ht, Hout. unfold trace, outcome in *. simpl in *.
  destruct (Hout st eq_refl) as (Ha & Hcond & Hst).
  assert (n = Assistant.maxAttempts) as ->; [|split; assumption].
  destruct Hst as [-> | Hbad]; [discriminate|].
  unfold Assistant.loop_cond, Assistant.run_ended_badly in *.
  rewrite Hc, Ha in Hcond.
  destruct (str_is (Assistant.runStatus st) (js "failed")); [discriminate|].
  simpl in Hcond. apply Nat.ltb_ge in Hcond.
  unfold Assistant.maxAttempts in *. lia.
Qed.

(** C2.  Each iteration of the loop sleeps 1000 ms and then fetches the run
    status.  When the first four status fetches report queued, in_progress,
    in_progress and completed, the loop ends with the completed state after
    exactly 4 status fetches and 4 sleeps of one second, and the handler goes
    on to read the messages instead of throwing the timeout. *)
Theorem poll_four_statuses (up : Assistant.Upstream) (thread run : JsVal) :
  fetched_status (Assistant.on_get_run up 0) = Some (JStr (js "queued")) ->
  fetched_status (Assistant.on_get_run up 1) = Some (JStr (js "in_progress")) ->
  fetched_status (Assistant.on_get_run up 2) = Some (JStr (js "in_progress")) ->
  fetched_status (Assistant.on_get_run up 3) = Some (JStr (js "completed")) ->
  let done :=
    {| Assistant.runStatus := JStr (js "completed");
       Assistant.attempts := 4 |} in
  (forall st,
     trace (Assistant.loop_body up thread run st)
     = [Sleep 1000;
        Fetch (GetRun thread run)
          (Assistant.on_get_run up (Assistant.attempts st))])
  /\ Assistant.poll up thread run Assistant.queued
     = ([Sleep 1000; Fetch (GetRun thread run) (Assistant.on_get_run up 0);
         Sleep 1000; Fetch (GetRun thread run) (Assistant.on_get_run up 1);
         Sleep 1000; Fetch (GetRun thread run) (Assistant.on_get_run up 2);
         Sleep 1000; Fetch (GetRun thread run) (Assistant.on_get_run up 3)],
        inr done)
  /\ count is_status_fetch
       (trace (Assistant.poll up thread run Assistant.queued)) = 4%nat
  /\ (4 <= count is_one_second
            (trace (Assistant.poll up thread run Assistant.queued)))%nat
  /\ Assistant.after_poll up thread run done
     = (responseText ← Assistant.fetch_and_extract up thread;
        mret {| code := 200;
                body := object [(js "response", JStr responseText);
                                (js "threadId", thread);
                                (js "runId", run)] |}).
Proof.
  intros H0 H1 H2 H3 done.
  destruct (fetched_report _ _ H3) as [d Hd].
  assert (Assistant.poll up thread run Assistant.queued
          = (iterations up thread run 0 4, inr done)) as Hpoll.
  { rewrite (poll_last up thread run 3 Assistant.queued d
               (JStr (js "completed"))); try reflexivity.
    - unfold Assistant.queued, Assistant.maxAttempts. simpl. lia.
    - intros i Hi. cbn [Assistant.attempts Assistant.queued Nat.add].
      destruct i as [|[|[|i]]]; [| | |lia];
        eapply fetched_pending; try eassumption; reflexivity.
    - exact Hd.
    - left. reflexivity. }
  split; [intros st; apply loop_body_trace|].
  split; [exact Hpoll|]. rewrite Hpoll. unfold trace. cbn [fst].
  rewrite status_fetches_iterations, sleeps_iterations.
  repeat split. lia.
Qed.

Lemma poll_four_statuses_witness :
  Assistant.poll (upstream_with four_statuses) (JStr (js "thread_1"))
    (JStr (js "run_1")) Assistant.queued
  = (iterations (upstream_with four_statuses) (JStr (js "thread_1"))
       (JStr (js "run_1")) 0 4,
     inr {| Assistant.runStatus := JStr (js "completed");
            Assistant.attempts := 4 |}).
Proof.
  apply (poll_four_statuses (upstream_with four_statuses)
           (JStr (js "thread_1")) (JStr (js "run_1"))); reflexivity.
Defined.

(** C3.  Whatever the upstream answers, a request performs at most 60 status
    fetches (the loop is defined by recursion on what is left of its attempt
    budget, so it always ends).  When the loop hands on a state whose status
    is not "completed", 60 fetches were made and the handler answers with
    status 500 and the message "Assistant response timeout". *)
Theorem poll_bounded_else_timeout
  (type_error_text : list N -> list N) (env : Env) (up : Assistant.Upstream)
  (reqBody : gmap (list N) JsVal) :
  (count is_status_fetch (fst (Assistant.chat type_error_text env up reqBody))
   <= 60)%nat
  /\ (forall thread run st,
        (count is_status_fetch (trace (Assistant.poll up thread run st))
         <= 60)%nat)
  /\ (forall c a t0 thread run t st,
        invalid_message (requested reqBody "message") = false ->
        OPENAI_ASSISTANT_ID env = Some (c :: a) ->
        prepare up (requested reqBody "message")
          (requested reqBody "threadId") (c :: a) = (t0, inr (thread, run)) ->
        Assistant.poll up thread run Assistant.queued = (t, inr st) ->
        str_is (Assistant.runStatus st) (js "completed") = false ->
        count is_status_fetch t = 60%nat
        /\ Assistant.chat type_error_text env up reqBody
           = (t0 ++ t,
              {| code := 500;
                 body := object
                   [(js "error", JStr (js "Internal server error"));
                    (js "message",
                     JStr (js "Assistant response timeout"))] |})).
Proof.
  split; [|split].
  - unfold Assistant.chat. rewrite trace_try_catch.
    destruct (invalid_message _); [cbn; lia|].
    destruct (OPENAI_ASSISTANT_ID env) as [[|c a]|]; try (cbn; lia).
    apply status_fetches_complete.
  - intros thread run st.
    pose proof (status_fetches_poll up thread run st) as H.
    unfold Assistant.maxAttempts in H. lia.
  - intros c a t0 thread run t st Hv Hc Hprep Hpoll Hst.
    destruct (poll_exit_not_completed _ _ _ _ _ Hpoll Hst) as [_ ->].
    split; [apply status_fetches_iterations|].
    rewrite (chat_when_poll_returns type_error_text env up reqBody
               c a t0 thread run Hv Hc Hprep _ _ Hpoll).
    unfold Assistant.after_poll. rewrite Hst.
    unfold trace, outcome, throw, try_catch, internal_error, message_of.
    cbn [negb fst snd]. rewrite app_nil_r. reflexivity.
Qed.

Lemma poll_bounded_else_timeout_witness :
  count is_status_fetch
    (fst (Assistant.chat plain example_env
            (upstream_with (fun _ => run_in "in_progress")) (says "hola")))
  = 60%nat
  /\ code (snd (Assistant.chat plain example_env
                  (upstream_with (fun _ => run_in "in_progress"))
                  (says "hola"))) = 500.
Proof.
  destruct (poll_bounded_else_timeout plain example_env
              (upstream_with (fun _ => run_in "in_progress")) (says "hola"))
    as (_ & _ & H).
  edestruct (H 97%N (js "sst_1")) as [Hn Hchat].
  - reflexivity.
  - reflexivity.
  - vm_compute. reflexivity.
  - vm_compute. reflexivity.
  - reflexivity.
  - rewrite Hchat. cbn [fst snd code]. split; [|reflexivity].
    rewrite count_app, Hn. reflexivity.
Defined.

Lemma keeps_polling_pending r : keeps_polling r = true -> pending r = true.
Proof.
  unfold keeps_polling, pending.
  destruct (run_report r) as [[d s]|]; [|discriminate].
  intros H. apply andb_prop in H as [H _]. exact H.
Qed.

(** C4.  When the fetches before attempt [k] all let the loop go on and the
    [k]-th one (for any [k] up to 60) reports the status "failed",
    "cancelled" or "expired", the loop throws right there: its trace is
    exactly [k] iterations, so no further status is fetched.  The error reads
    "Run <status>: <text>", where the text is the upstream's
    [last_error.message] when that is a non-empty string and "Unknown error"
    when it is absent or falsy.  The handler then answers 500 with that
    message.  (The thread, the run and the earlier statuses are taken
    printable, as the URL and the log line need them.) *)
Theorem bad_status_fails_at_once
  (type_error_text : list N -> list N) (env : Env) (up : Assistant.Upstream)
  (reqBody : gmap (list N) JsVal) (k : nat) (d : JsVal) (status : list N) :
  (1 <= k <= 60)%nat ->
  (forall i, (i < k - 1)%nat ->
             keeps_polling (Assistant.on_get_run up i) = true) ->
  run_report (Assistant.on_get_run up (k - 1)) = Some (d, JStr status) ->
  status = js "failed" \/ status = js "cancelled" \/ status = js "expired" ->
  (exists m, last_error_message d = JStr m)
  \/ truthy (last_error_message d) = false ->
  let text :=
    js "Run " ++ status ++ js ": "
    ++ match last_error_message d with
       | JStr (c :: m) => c :: m
       | _ => js "Unknown error"
       end
  in
  (forall thread run,
     printable thread = true -> printable run = true ->
     Assistant.poll up thread run Assistant.queued
     = (iterations up thread run 0 k, inl (Error text))
     /\ count is_status_fetch
          (trace (Assistant.poll up thread run Assistant.queued)) = k)
  /\ (forall c a t0 thread run,
        invalid_message (requested reqBody "message") = false ->
        OPENAI_ASSISTANT_ID env = Some (c :: a) ->
        prepare up (requested reqBody "message")
          (requested reqBody "threadId") (c :: a) = (t0, inr (thread, run)) ->
        printable thread = true -> printable run = true ->
        Assistant.chat type_error_text env up reqBody
        = (t0 ++ iterations up thread run 0 k,
           {| code := 500;
              body := object
                [(js "error", JStr (js "Internal server error"));
                 (js "message", JStr text)] |})).
Proof.
  intros Hk Hp Hrep Hstatus Hmsg text.
  assert (Assistant.run_ended_badly (JStr status) = true) as Hbad
    by (destruct Hstatus as [-> | [-> | ->]]; reflexivity).
  assert (run_failure_text d (JStr status) = text) as Htext.
  { unfold run_failure_text, text, or_else. cbn [to_string].
    destruct Hmsg as [[m Hm] | Hfalsy].
    - rewrite Hm. destruct m; reflexivity.
    - rewrite Hfalsy.
      destruct (last_error_message d) as [| | | | [|c m] | |];
        try reflexivity; discriminate. }
  assert (forall thread run,
            Assistant.poll up thread run Assistant.queued
            = (iterations up thread run 0 k, inl (Error text))) as Hpoll.
  { intros thread run. destruct k as [|n]; [lia|].
    replace (S n - 1)%nat with n in * by lia.
    rewrite (poll_last up thread run n Assistant.queued d (JStr status));
      [rewrite Hbad, Htext; reflexivity|reflexivity| | |exact Hrep
      |right; exact Hbad].
    - unfold Assistant.queued, Assistant.maxAttempts. simpl. lia.
    - intros i Hi. apply keeps_polling_pending, Hp. exact Hi. }
  split.
  - intros thread run _ _. split; [apply Hpoll|].
    rewrite Hpoll. apply status_fetches_iterations.
  - intros c a t0 thread run Hv Hc Hprep _ _.
    rewrite (chat_when_poll_throws type_error_text env up reqBody
               c a t0 thread run Hv Hc Hprep _ _ (Hpoll thread run)).
    reflexivity.
Qed.

Lemma bad_status_fails_at_once_witness :
  Assistant.chat plain example_env (upstream_with fails_third) (says "hola")
  = ([Fetch CreateThread (answers 200 (with_id "thread_1"));
      Fetch (AddMessage (JStr (js "thread_1")) (JStr (js "hola")))
        (answers 200 (JObj ∅));
      Fetch (CreateRun (JStr (js "thread_1")) (js "asst_1"))
        (answers 200 (with_id "run_1"))]
     ++ iterations (upstream_with fails_third) (JStr (js "thread_1"))
          (JStr (js "run_1")) 0 3,
     {| code := 500;
        body := object
          [(js "error", JStr (js "Internal server error"));
           (js "message", JStr (js "Run failed: rate limited"))] |})
  /\ Assistant.poll (upstream_with cancelled_second) (JStr (js "thread_1"))
       (JStr (js "run_1")) Assistant.queued
     = (iterations (upstream_with cancelled_second) (JStr (js "thread_1"))
          (JStr (js "run_1")) 0 2,
        inl (Error (js "Run cancelled: Unknown error"))).
Proof.
  split.
  - refine (proj2 (bad_status_fails_at_once plain example_env
              (upstream_with fails_third) (says "hola") 3
              (JObj (object
                 [(js "status", JStr (js "failed"));
                  (js "last_error",
                   JObj (object [(js "message", JStr (js "rate limited"))]))]))
              (js "failed") _ _ eq_refl (or_introl eq_refl)
              (or_introl (ex_intro _ (js "rate limited") eq_refl)))
            97%N (js "sst_1") _ (JStr (js "thread_1")) (JStr (js "run_1"))
            eq_refl eq_refl eq_refl eq_refl eq_refl).
    + lia.
    + intros i Hi. destruct i as [|[|i]]; [reflexivity|reflexivity|lia].
  - refine (proj1 (proj1 (bad_status_fails_at_once plain example_env
              (upstream_with cancelled_second) (says "hola") 2
              (JObj (object [(js "status", JStr (js "cancelled"))]))
              (js "cancelled") _ _ eq_refl (or_intror (or_introl eq_refl))
              (or_intror eq_refl))
            (JStr (js "thread_1")) (JStr (js "run_1")) eq_refl eq_refl)).
    + lia.
    + intros i Hi. destruct i as [|i]; [reflexivity|lia].
Defined.

(** ** Thread resolution *)

Lemma outcome_bind {A B} (m : M A) (f : A -> M B) :
  outcome (m ≫= f)
  = match outcome m with inl e => inl e | inr a => outcome (f a) end.
Proof.
  destruct m as [t [e|a]]; unfold mbind, M_bind, outcome; simpl;
    [reflexivity|]. destruct (f a). reflexivity.
Qed.

Section ThreadResolution.
Import Assistant.
Variable type_error_text : list N -> list N.
Variable env : Env.
Variable up : Upstream.

Lemma resolve_thread_falsy v w :
  truthy v = false -> truthy w = false ->
  resolve_thread up v = resolve_thread up w.
Proof. intros Hv Hw. unfold resolve_thread. rewrite Hv, Hw. reflexivity. Qed.

Lemma resolve_thread_outcome threadId thread :
  outcome (resolve_thread up threadId) = inr thread ->
  if truthy threadId then thread = threadId
  else created_id (on_create_thread up) = Some thread.
Proof.
  unfold resolve_thread, created_id, fetch, json, lift.
  destruct (truthy threadId); cbn [negb].
  - intros [= <-]. reflexivity.
  - destruct (on_create_thread up) as [m|resp]; [discriminate|].
    rewrite outcome_bind. cbn [outcome snd].
    destruct (ok resp); cbn [negb]; [|discriminate].
    destruct (payload resp) as [m|d]; [discriminate|].
    rewrite ret_bind. cbn [outcome snd].
    destruct (get d (js "id")); [discriminate|]. intros [= <-]. reflexivity.
Qed.

Lemma creates_complete message threadId assistant_id :
  count is_create_thread
    (trace (Assistant.complete up message threadId assistant_id))
  = if truthy threadId then 0%nat else 1%nat.
Proof.
  unfold Assistant.complete. rewrite count_bind, resolve_thread_trace.
  assert (forall thread,
            count is_create_thread
              (trace (_ ← add_message up thread message;
                      runId ← start_run up thread assistant_id;
                      st ← poll up thread runId queued;
                      after_poll up thread runId st)) = 0%nat) as Hrest.
  { intros thread. rewrite count_bind, add_message_trace.
    destruct (outcome _); [reflexivity|].
    rewrite count_bind, start_run_trace.
    destruct (outcome _) as [|runId]; [reflexivity|].
    rewrite count_bind.
    destruct (poll_shape up thread runId queued) as (n & _ & -> & _).
    rewrite creates_iterations.
    destruct (outcome _) as [|st]; [reflexivity|].
    rewrite after_poll_trace.
    destruct (str_is (runStatus st) (js "completed")); reflexivity. }
  destruct (outcome (resolve_thread up threadId)) as [e|thread];
    [|rewrite Hrest]; destruct (truthy threadId); reflexivity.
Qed.

(** A reply that [complete] returns carries the resolved thread. *)
Lemma complete_success message threadId assistant_id reply :
  outcome (Assistant.complete up message threadId assistant_id) = inr reply ->
  code reply = 200
  /\ exists thread,
       outcome (resolve_thread up threadId) = inr thread
       /\ body reply !! js "threadId" = Some thread.
Proof.
  unfold Assistant.complete. intros H.
  apply outcome_bind_inr in H as (thread & Hth & H).
  apply outcome_bind_inr in H as (_ & _ & H).
  apply outcome_bind_inr in H as (runId & _ & H).
  apply outcome_bind_inr in H as (st & _ & H).
  unfold after_poll in H.
  destruct (negb (str_is (runStatus st) (js "completed"))); [discriminate|].
  apply outcome_bind_inr in H as (text & _ & H).
  injection H as <-. split; [reflexivity|].
  exists thread. split; [exact Hth|]. reflexivity.
Qed.

Variable reqBody : gmap (list N) JsVal.
Variables (c : N) (a : list N).
Hypothesis valid : invalid_message (requested reqBody "message") = false.
Hypothesis configured : OPENAI_ASSISTANT_ID env = Some (c :: a).

Lemma chat_is_complete :
  Assistant.chat type_error_text env up reqBody
  = try_catch type_error_text
      (Assistant.complete up (requested reqBody "message")
         (requested reqBody "threadId") (c :: a)).
Proof.
  unfold Assistant.chat. fold (requested reqBody "message").
  fold (requested reqBody "threadId"). rewrite valid, configured.
  reflexivity.
Qed.

Lemma chat_creates :
  count is_create_thread (fst (Assistant.chat type_error_text env up reqBody))
  = if truthy (requested reqBody "threadId") then 0%nat else 1%nat.
Proof. rewrite chat_is_complete, trace_try_catch. apply creates_complete. Qed.

Lemma chat_success_thread :
  code (snd (Assistant.chat type_error_text env up reqBody)) = 200 ->
  exists thread,
    body (snd (Assistant.chat type_error_text env up reqBody))
      !! js "threadId" = Some thread
    /\ if truthy (requested reqBody "threadId")
       then thread = requested reqBody "threadId"
       else created_id (on_create_thread up) = Some thread.
Proof.
  rewrite chat_is_complete.
  destruct (Assistant.complete up _ _ _) as [t [e|reply]] eqn:Hc;
    cbn [try_catch snd]; [discriminate|]. intros _.
  destruct (complete_success (requested reqBody "message")
              (requested reqBody "threadId") (c :: a) reply)
    as (_ & thread & Hth & Hb).
  { rewrite Hc. reflexivity. }
  exists thread. split; [exact Hb|].
  apply resolve_thread_outcome. exact Hth.
Qed.

Lemma chat_first_call :
  truthy (requested reqBody "threadId") = false ->
  head (fst (Assistant.chat type_error_text env up reqBody))
  = Some (Fetch CreateThread (on_create_thread up)).
Proof.
  intros Hf. rewrite chat_is_complete, trace_try_catch.
  unfold Assistant.complete. rewrite trace_bind, resolve_thread_trace, Hf.
  reflexivity.
Qed.

End ThreadResolution.

(** C6, as the code has it.  For a request that passed validation, with the
    assistant configured: when the supplied [threadId] is truthy, no "create
    thread" call is made and a successful reply carries that [threadId];
    when none is supplied, or a falsy one, exactly one "create thread" call
    is made and a successful reply carries the identifier that call
    returned. *)
Theorem thread_reused_or_created
  (type_error_text : list N -> list N) (env : Env) (up : Assistant.Upstream)
  (reqBody : gmap (list N) JsVal) (c : N) (a : list N) :
  invalid_message (requested reqBody "message") = false ->
  OPENAI_ASSISTANT_ID env = Some (c :: a) ->
  (truthy (requested reqBody "threadId") = true ->
     count is_create_thread
       (fst (Assistant.chat type_error_text env up reqBody)) = 0%nat
     /\ (code (snd (Assistant.chat type_error_text env up reqBody)) = 200 ->
         body (snd (Assistant.chat type_error_text env up reqBody))
           !! js "threadId" = Some (requested reqBody "threadId")))
  /\ (reqBody !! js "threadId" = None
      \/ truthy (requested reqBody "threadId") = false ->
     count is_create_thread
       (fst (Assistant.chat type_error_text env up reqBody)) = 1%nat
     /\ (code (snd (Assistant.chat type_error_text env up reqBody)) = 200 ->
         exists id,
           created_id (Assistant.on_create_thread up) = Some id
           /\ body (snd (Assistant.chat type_error_text env up reqBody))
                !! js "threadId" = Some id)).
Proof.
  intros Hv Hc.
  pose proof (chat_creates type_error_text env up reqBody c a Hv Hc) as Hn.
  pose proof (chat_success_thread type_error_text env up reqBody c a Hv Hc)
    as Hs.
  split.
  - intros Ht. rewrite Ht in Hn, Hs. split; [exact Hn|].
    intros H200. destruct (Hs H200) as (thread & Hb & ->). exact Hb.
  - intros Ht.
    assert (truthy (requested reqBody "threadId") = false) as Hf.
    { destruct Ht as [Hnone|Hf]; [|exact Hf].
      unfold requested. rewrite Hnone. reflexivity. }
    rewrite Hf in Hn, Hs. split; [exact Hn|].
    intros H200. destruct (Hs H200) as (thread & Hb & Hid).
    exists thread. split; assumption.
Qed.

Lemma thread_reused_or_created_witness :
  count is_create_thread
    (fst (Assistant.chat plain example_env (upstream_with four_statuses)
            (says_in "hola" (JStr (js "thread_9"))))) = 0%nat
  /\ body (snd (Assistant.chat plain example_env (upstream_with four_statuses)
                  (says_in "hola" (JStr (js "thread_9")))))
       !! js "threadId" = Some (JStr (js "thread_9")).
Proof.
  destruct (thread_reused_or_created plain example_env
              (upstream_with four_statuses)
              (says_in "hola" (JStr (js "thread_9"))) 97%N (js "sst_1")
              eq_refl eq_refl) as [[Hn Hb] _]; [reflexivity|].
  split; [exact Hn|]. apply Hb. reflexivity.
Defined.

(** C6 as stated fails: the empty string is a supplied [threadId], yet a
    thread is created and the reply carries the new identifier. *)
Lemma supplied_empty_thread_is_replaced :
  says_in "hola" (JStr []) !! js "threadId" = Some (JStr [])
  /\ count is_create_thread
       (fst (Assistant.chat plain example_env (upstream_with four_statuses)
               (says_in "hola" (JStr [])))) = 1%nat
  /\ code (snd (Assistant.chat plain example_env (upstream_with four_statuses)
                  (says_in "hola" (JStr [])))) = 200
  /\ body (snd (Assistant.chat plain example_env (upstream_with four_statuses)
                  (says_in "hola" (JStr []))))
       !! js "threadId" = Some (JStr (js "thread_1")).
Proof. repeat split; vm_compute; reflexivity. Qed.

(** C10.  A supplied [threadId] that is falsy (the empty string, [null],
    [false], [0]) is treated as absent: the handler behaves exactly as on the
    same body without the field.  For a valid request with the assistant
    configured one "create thread" call is made, and a successful reply
    carries the identifier that call returned. *)
Theorem falsy_thread_is_absent
  (type_error_text : list N -> list N) (env : Env) (up : Assistant.Upstream)
  (reqBody : gmap (list N) JsVal) (v : JsVal) :
  reqBody !! js "threadId" = Some v ->
  truthy v = false ->
  Assistant.chat type_error_text env up reqBody
  = Assistant.chat type_error_text env up (delete (js "threadId") reqBody)
  /\ forall c a,
       invalid_message (requested reqBody "message") = false ->
       OPENAI_ASSISTANT_ID env = Some (c :: a) ->
       count is_create_thread
         (fst (Assistant.chat type_error_text env up reqBody)) = 1%nat
       /\ head (fst (Assistant.chat type_error_text env up reqBody))
          = Some (Fetch CreateThread (Assistant.on_create_thread up))
       /\ (code (snd (Assistant.chat type_error_text env up reqBody)) = 200 ->
           exists id,
             created_id (Assistant.on_create_thread up) = Some id
             /\ body (snd (Assistant.chat type_error_text env up reqBody))
                  !! js "threadId" = Some id).
Proof.
  intros Hsome Hfalsy. split.
  - unfold Assistant.chat.
    rewrite lookup_delete_ne by (vm_compute; discriminate).
    rewrite lookup_delete_eq, Hsome. cbn [from_option id].
    destruct (invalid_message _); [reflexivity|].
    destruct (OPENAI_ASSISTANT_ID env) as [[|c a]|]; try reflexivity.
    unfold Assistant.complete.
    rewrite (resolve_thread_falsy up v JUndefined Hfalsy eq_refl).
    reflexivity.
  - intros c a Hv Hc.
    assert (truthy (requested reqBody "threadId") = false) as Hf.
    { unfold requested. rewrite Hsome. exact Hfalsy. }
    pose proof (chat_creates type_error_text env up reqBody c a Hv Hc) as Hn.
    pose proof (chat_success_thread type_error_text env up reqBody c a Hv Hc)
      as Hs.
    rewrite Hf in Hn, Hs. split; [exact Hn|]. split.
    + apply (chat_first_call type_error_text env up reqBody c a Hv Hc Hf).
    + intros H200. destruct (Hs H200) as (thread & Hb & Hid).
      exists thread. split; assumption.
Qed.

Lemma falsy_thread_is_absent_witness :
  Assistant.chat plain example_env (upstream_with four_statuses)
    (says_in "hola" (JStr []))
  = Assistant.chat plain example_env (upstream_with four_statuses)
      (delete (js "threadId") (says_in "hola" (JStr [])))
  /\ count is_create_thread
       (fst (Assistant.chat plain example_env (upstream_with four_statuses)
               (says_in "hola" (JStr [])))) = 1%nat.
Proof.
  destruct (falsy_thread_is_absent plain example_env
              (upstream_with four_statuses) (says_in "hola" (JStr []))
              (JStr []) eq_refl eq_refl) as [Hsame Hrest].
  split; [exact Hsame|].
  destruct (Hrest 97%N (js "sst_1") eq_refl eq_refl) as [Hn _]. exact Hn.
Defined.

(** ** Post-processing of the reply text *)

Section PostProcessing.
Import Assistant.

Lemma after_close_none s :
  after_close s = None <-> existsb (N.eqb close_mark) s = false.
Proof.
  induction s as [|c s IH]; cbn [after_close existsb]; [tauto|].
  rewrite (N.eqb_sym close_mark c).
  destruct (N.eqb c close_mark); cbn [orb]; [|exact IH].
  split; discriminate.
Qed.

Lemma after_close_keeps s r c :
  after_close s = Some r -> In c r -> In c s.
Proof.
  revert r. induction s as [|x s IH]; intros r; cbn [after_close In];
    [discriminate|].
  destruct (N.eqb x close_mark).
  - intros [= <-]. tauto.
  - intros H Hin. right. eapply IH; eassumption.
Qed.

Lemma strip_step s :
  strip_citations s =
  match s with
  | [] => []
  | c :: rest =>
      match marker_at s with
      | Some r => strip_citations r
      | None => c :: strip_citations rest
      end
  end.
Proof.
  funelim (strip_citations s).
  - reflexivity.
  - rewrite e. reflexivity.
  - rewrite e. reflexivity.
Qed.

Lemma marker_at_shorter s r :
  marker_at s = Some r -> (length r < length s)%nat.
Proof.
  destruct s as [|c rest]; cbn [marker_at]; [discriminate|].
  destruct (N.eqb c open_mark); [|discriminate].
  intros H. apply after_close_shorter in H. cbn [length]. lia.
Qed.

(** Induction along the scan. *)
Lemma strip_scan (P : list N -> list N -> Prop) :
  P [] [] ->
  (forall c rest r,
     marker_at (c :: rest) = Some r ->
     P r (strip_citations r) -> P (c :: rest) (strip_citations r)) ->
  (forall c rest,
     marker_at (c :: rest) = None ->
     P rest (strip_citations rest) ->
     P (c :: rest) (c :: strip_citations rest)) ->
  forall s, P s (strip_citations s).
Proof.
  intros Hnil Hdrop Hkeep s.
  remember (length s) as n eqn:Hn. revert s Hn.
  induction n as [n IH] using lt_wf_ind. intros s Hn.
  rewrite strip_step. destruct s as [|c rest]; [exact Hnil|].
  destruct (marker_at (c :: rest)) as [r|] eqn:Hm.
  - apply Hdrop; [exact Hm|]. apply marker_at_shorter in Hm.
    apply (IH (length r)); [lia|reflexivity].
  - apply Hkeep; [exact Hm|].
    apply (IH (length rest)); [subst n; cbn [length]; lia|reflexivity].
Qed.

(** Stripping only drops code units. *)
Lemma strip_keeps x s : In x (strip_citations s) -> In x s.
Proof.
  apply (strip_scan (fun s out => In x out -> In x s)).
  - tauto.
  - intros c rest r Hm IH Hin. apply IH in Hin.
    cbn [marker_at] in Hm. destruct (N.eqb c open_mark); [|discriminate].
    right. eapply after_close_keeps; eassumption.
  - intros c rest _ IH [<-|Hin]; [left; reflexivity|]. right. apply IH, Hin.
Qed.

Lemma strip_no_close s :
  existsb (N.eqb close_mark) s = false ->
  existsb (N.eqb close_mark) (strip_citations s) = false.
Proof.
  intros H. apply not_true_is_false. intros Hex.
  apply existsb_exists in Hex as (c & Hin & Hc).
  apply strip_keeps in Hin.
  assert (existsb (N.eqb close_mark) s = true) as Hs
    by (apply existsb_exists; exists c; split; assumption).
  congruence.
Qed.

(** No marker is left. *)
Lemma strip_has_no_marker s : has_marker (strip_citations s) = false.
Proof.
  apply (strip_scan (fun _ out => has_marker out = false)).
  - reflexivity.
  - intros c rest r _ IH. exact IH.
  - intros c rest Hm IH. cbn [has_marker]. rewrite IH, orb_false_r.
    destruct (N.eqb c open_mark) eqn:Hc; [|reflexivity]. cbn [andb].
    apply strip_no_close. apply after_close_none.
    cbn [marker_at] in Hm. rewrite Hc in Hm. exact Hm.
Qed.







End PostProcessing.



(** ** Variant A: the message list *)

Section MessageList.
Import Stateless.
Variable type_error_text : list N -> list N.
Variable env : Env.
Variable completion : FetchResult.

Lemma copy_history_entries h :
  forallb not_null h = true -> copy_history h = mret (map copied h).
Proof.
  induction h as [|e h IH]; [reflexivity|].
  cbn [forallb copy_history map]. intros H. apply andb_prop in H as [He Hh].
  apply negb_true_iff in He.
  destruct (get_total e (js "role") He) as [role Hrole].
  destruct (get_total e (js "content") He) as [content Hcontent].
  unfold copied, prop. rewrite Hrole, Hcontent.
  rewrite lift_bind. cbv beta iota. rewrite lift_bind. cbv beta iota.
  rewrite (IH Hh), ret_bind. reflexivity.
Qed.

Lemma upstream_error_pure response : trace (upstream_error response) = [].
Proof.
  unfold upstream_error. apply pure_bind; [apply json_pure|]. intros d.
  apply pure_bind; [reflexivity|]. intros e.
  apply pure_bind; reflexivity.
Qed.

Lemma success_pure response : trace (success response) = [].
Proof.
  unfold success. apply pure_bind; [apply json_pure|]. intros d.
  repeat (apply pure_bind; [reflexivity|]; intros ?). reflexivity.
Qed.

Lemma copy_history_pure h : trace (copy_history h) = [].
Proof.
  induction h as [|e h IH]; [reflexivity|]. cbn [copy_history].
  apply pure_bind; [reflexivity|]. intros role.
  apply pure_bind; [reflexivity|]. intros content.
  apply pure_bind; [exact IH|]. reflexivity.
Qed.

Lemma build_messages_pure message history :
  trace (build_messages message history) = [].
Proof.
  unfold build_messages. apply pure_bind; [apply as_array_pure|]. intros h.
  apply pure_bind; [apply copy_history_pure|]. reflexivity.
Qed.

(** The trace of the handler is empty or the one completion call. *)
Lemma complete_trace message history :
  trace (Stateless.complete env completion message history)
  = match outcome (build_messages message history) with
    | inr messages => [Fetch (completion_call env messages) completion]
    | inl _ => []
    end.
Proof.
  unfold Stateless.complete. rewrite trace_bind, build_messages_pure.
  destruct (outcome (build_messages message history)) as [e|messages];
    [reflexivity|].
  apply trace_fetch_then. intros resp.
  destruct (negb (ok resp)); [apply upstream_error_pure|apply success_pure].
Qed.

Lemma build_messages_history m h :
  forallb not_null h = true ->
  build_messages (JStr m) (JArr h)
  = mret (system_message :: map copied h ++ [user_message (JStr m)]).
Proof.
  intros Hh. unfold build_messages, or_else, as_array. cbn [truthy].
  rewrite ret_bind, (copy_history_entries h Hh), ret_bind. reflexivity.
Qed.

Lemma build_messages_no_history m v :
  truthy v = false ->
  build_messages (JStr m) v
  = mret [system_message; user_message (JStr m)].
Proof.
  intros Hv. unfold build_messages, or_else. rewrite Hv. reflexivity.
Qed.

End MessageList.

Lemma copied_props e :
  prop (copied e) "role" = prop e "role"
  /\ prop (copied e) "content" = prop e "content".
Proof. split; reflexivity. Qed.

Lemma recognized_copied e : recognized (copied e) = recognized e.
Proof. unfold recognized. rewrite (proj1 (copied_props e)). reflexivity. Qed.

Lemma chat_sends_messages
  (type_error_text : list N -> list N) (env : Env) (completion : FetchResult)
  (reqBody : gmap (list N) JsVal) (m : list N) (h : list JsVal) :
  reqBody !! js "message" = Some (JStr m) ->
  m <> [] ->
  reqBody !! js "conversationHistory" = Some (JArr h)
  \/ (reqBody !! js "conversationHistory" = None /\ h = []) ->
  forallb not_null h = true ->
  fst (Stateless.chat type_error_text env completion reqBody)
  = [Fetch (Stateless.completion_call env
              (Stateless.system_message
               :: map copied h ++ [Stateless.user_message (JStr m)]))
       completion].
Proof.
  intros Hm Hne Hh Hnn. unfold Stateless.chat. rewrite Hm. cbn [from_option id].
  assert (invalid_message (JStr m) = false) as ->
    by (destruct m; [congruence|reflexivity]).
  rewrite trace_try_catch, complete_trace.
  destruct Hh as [-> | [-> ->]]; cbn [from_option id].
  - rewrite (build_messages_history m h Hnn). reflexivity.
  - rewrite (build_messages_no_history m JUndefined eq_refl). reflexivity.
Qed.

(** C8.  For a request with a non-empty string [message] and a history that
    is an array of entries none of which is [null], the one call made
    upstream carries exactly: the system entry, with role "system" and the
    fixed instruction "Eres un asistente útil y amigable. Respondes de manera
    clara y concisa." as content (its "ú" is the code unit 250); then a copy
    of each history entry in order holding that entry's [role] and
    [content]; then [{role: "user", content: message}]; that is [|h| + 2]
    messages.  A body without [conversationHistory] is handled as one with
    the empty array. *)
Theorem messages_sent
  (type_error_text : list N -> list N) (env : Env) (completion : FetchResult)
  (reqBody : gmap (list N) JsVal) (m : list N) (h : list JsVal) :
  reqBody !! js "message" = Some (JStr m) ->
  m <> [] ->
  reqBody !! js "conversationHistory" = Some (JArr h)
  \/ (reqBody !! js "conversationHistory" = None /\ h = []) ->
  forallb not_null h = true ->
  let messages :=
    JObj (object
      [(js "role", JStr (js "system"));
       (js "content",
        JStr (js "Eres un asistente " ++ [250%N]
              ++ js "til y amigable. Respondes de manera clara y concisa."))])
    :: map (fun entry =>
              JObj (object [(js "role", prop entry "role");
                            (js "content", prop entry "content")])) h
    ++ [JObj (object [(js "role", JStr (js "user"));
                      (js "content", JStr m)])] in
  fst (Stateless.chat type_error_text env completion reqBody)
  = [Fetch (Stateless.completion_call env messages) completion]
  /\ forwarded (fst (Stateless.chat type_error_text env completion reqBody))
     = messages
  /\ length messages = (length h + 2)%nat
  /\ (forall e, prop (copied e) "role" = prop e "role"
                /\ prop (copied e) "content" = prop e "content")
  /\ prop Stateless.system_message "role" = JStr (js "system")
  /\ Stateless.user_message (JStr m)
     = JObj (object [(js "role", JStr (js "user"));
                     (js "content", JStr m)]).
Proof.
  intros Hm Hne Hh Hnn messages.
  rewrite (chat_sends_messages type_error_text env completion reqBody m h
             Hm Hne Hh Hnn).
  split; [reflexivity|]. split.
  - unfold forwarded, Stateless.completion_call. cbn [flat_map].
    rewrite app_nil_r. reflexivity.
  - split; [|split; [exact copied_props|split; reflexivity]].
    unfold messages. cbn [length]. rewrite length_app, length_map.
    cbn [length]. lia.
Qed.

Lemma messages_sent_witness :
  forwarded
    (fst (Stateless.chat plain example_env (Rejects [])
            (history_of [turn "user" "hola"; turn "assistant" "buenas"]
               "gracias")))
  = [JObj (object
       [(js "role", JStr (js "system"));
        (js "content",
         JStr (js "Eres un asistente " ++ [250%N]
               ++ js "til y amigable. Respondes de manera clara y concisa."))]);
     turn "user" "hola"; turn "assistant" "buenas"; turn "user" "gracias"].
Proof.
  destruct (messages_sent plain example_env (Rejects [])
              (history_of [turn "user" "hola"; turn "assistant" "buenas"]
                 "gracias")
              (js "gracias") [turn "user" "hola"; turn "assistant" "buenas"]
              eq_refl ltac:(discriminate) (or_introl eq_refl) eq_refl)
    as (_ & H & _).
  rewrite H. reflexivity.
Defined.

(** C9, as the code has it.  Roles are not checked: the forwarded list is
    the system message, the history entries with the role each one came
    with, and the user message.  So every forwarded role is one of system,
    user and assistant exactly when every role of the supplied history is. *)
Theorem forwarded_roles
  (type_error_text : list N -> list N) (env : Env) (completion : FetchResult)
  (reqBody : gmap (list N) JsVal) (m : list N) (h : list JsVal) :
  reqBody !! js "message" = Some (JStr m) ->
  m <> [] ->
  reqBody !! js "conversationHistory" = Some (JArr h)
  \/ (reqBody !! js "conversationHistory" = None /\ h = []) ->
  forallb not_null h = true ->
  forwarded (fst (Stateless.chat type_error_text env completion reqBody))
  = Stateless.system_message
    :: map copied h ++ [Stateless.user_message (JStr m)]
  /\ (forall e, prop (copied e) "role" = prop e "role")
  /\ prop Stateless.system_message "role" = JStr (js "system")
  /\ prop (Stateless.user_message (JStr m)) "role" = JStr (js "user")
  /\ forallb recognized
       (forwarded (fst (Stateless.chat type_error_text env completion reqBody)))
     = forallb recognized h.
Proof.
  intros Hm Hne Hh Hnn.
  assert (forwarded
            (fst (Stateless.chat type_error_text env completion reqBody))
          = Stateless.system_message
            :: map copied h ++ [Stateless.user_message (JStr m)]) as Hfw.
  { rewrite (chat_sends_messages type_error_text env completion reqBody m h
               Hm Hne Hh Hnn).
    unfold forwarded, Stateless.completion_call. cbn [flat_map].
    apply app_nil_r. }
  split; [exact Hfw|]. split; [intros e; apply copied_props|].
  split; [reflexivity|]. split; [reflexivity|].
  rewrite Hfw. cbn [forallb]. rewrite forallb_app. cbn [forallb].
  assert (recognized Stateless.system_message = true) as -> by reflexivity.
  assert (recognized (Stateless.user_message (JStr m)) = true) as ->
    by reflexivity.
  rewrite andb_true_r. cbn [andb].
  clear. induction h as [|e h IH]; [reflexivity|].
  cbn [map forallb]. rewrite recognized_copied, IH. reflexivity.
Qed.

Lemma forwarded_roles_witness :
  forallb recognized
    (forwarded
       (fst (Stateless.chat plain example_env (Rejects [])
               (history_of [turn "user" "hola"; turn "assistant" "buenas"]
                  "gracias"))))
  = true.
Proof.
  destruct (forwarded_roles plain example_env (Rejects [])
              (history_of [turn "user" "hola"; turn "assistant" "buenas"]
                 "gracias")
              (js "gracias") [turn "user" "hola"; turn "assistant" "buenas"]
              eq_refl ltac:(discriminate) (or_introl eq_refl) eq_refl)
    as (_ & _ & _ & _ & H).
  rewrite H. reflexivity.
Defined.

(** C9 as stated fails: a history entry with role "tool" is forwarded with
    that role. *)
Lemma unrecognized_role_is_forwarded :
  forwarded
    (fst (Stateless.chat plain example_env (Rejects [])
            (history_of [turn "tool" "x"] "hola")))
  = [Stateless.system_message; turn "tool" "x"; turn "user" "hola"]
  /\ recognized (turn "tool" "x") = false
  /\ forallb recognized
       (forwarded
          (fst (Stateless.chat plain example_env (Rejects [])
                  (history_of [turn "tool" "x"] "hola"))))
     = false.
Proof. repeat split; vm_compute; reflexivity. Qed.

(** ** Upstream failures *)

Lemma fails_well_pure {A} (m : M A) : trace m = [] -> fails_well m.
Proof. intros H c resp [Hin _]. rewrite H in Hin. destruct Hin. Qed.

Lemma fails_well_bind_after {A B} (m : M A) (f : A -> M B) :
  fails_well m ->
  (forall a, outcome m = inr a -> fails_well (f a)) ->
  fails_well (m ≫= f).
Proof.
  intros Hm Hf c resp [Hin Hok]. rewrite trace_bind in Hin.
  rewrite outcome_bind. apply in_app_or in Hin as [Hin|Hin].
  - rewrite (Hm c resp (conj Hin Hok)). reflexivity.
  - destruct (outcome m) as [e|a]; [destruct Hin|].
    apply (Hf a eq_refl). split; assumption.
Qed.

Lemma fails_well_bind {A B} (m : M A) (f : A -> M B) :
  fails_well m -> (forall a, fails_well (f a)) -> fails_well (m ≫= f).
Proof. intros Hm Hf. apply fails_well_bind_after; auto. Qed.

Lemma fails_well_fetch_then {B} c0 r (k : Response -> M B) :
  (forall resp, trace (k resp) = []) ->
  (forall resp, ok resp = false ->
                outcome (k resp) = inl (Error (failure_message c0 resp))) ->
  fails_well (fetch c0 r ≫= k).
Proof.
  intros Hpure Hk c resp [Hin Hok].
  rewrite (trace_fetch_then c0 r k Hpure) in Hin.
  destruct Hin as [[= <- ->]|[]].
  rewrite outcome_bind. cbn [fetch outcome snd]. apply Hk. exact Hok.
Qed.

Section UpstreamFailures.
Import Assistant.
Variable up : Upstream.

Lemma resolve_thread_fails_well threadId :
  fails_well (resolve_thread up threadId).
Proof.
  unfold resolve_thread. destruct (truthy threadId); cbn [negb].
  - apply fails_well_pure. reflexivity.
  - apply fails_well_fetch_then; intros resp.
    + destruct (negb (ok resp)); [reflexivity|].
      apply pure_bind; [apply json_pure|]. reflexivity.
    + intros ->. reflexivity.
Qed.

Lemma add_message_fails_well thread message :
  fails_well (add_message up thread message).
Proof.
  unfold add_message. apply fails_well_fetch_then; intros resp.
  - destruct (negb (ok resp)); [|reflexivity].
    apply pure_bind; [apply json_pure|]. reflexivity.
  - intros ->. cbn [negb]. unfold json, failure_message.
    destruct (payload resp); reflexivity.
Qed.

Lemma start_run_fails_well thread assistant_id :
  fails_well (start_run up thread assistant_id).
Proof.
  unfold start_run. apply fails_well_fetch_then; intros resp.
  - destruct (negb (ok resp));
      (apply pure_bind; [apply json_pure|]); reflexivity.
  - intros ->. cbn [negb]. unfold json, failure_message.
    destruct (payload resp); reflexivity.
Qed.

Lemma loop_body_fails_well thread run st :
  fails_well (loop_body up thread run st).
Proof.
  unfold loop_body. apply fails_well_bind;
    [intros c resp [[H|[]] _]; discriminate|]. intros _.
  apply fails_well_fetch_then; intros resp.
  - destruct (negb (ok resp)); [reflexivity|].
    apply pure_bind; [apply json_pure|]. intros d.
    apply pure_bind; [reflexivity|]. intros s.
    destruct (run_ended_badly s); [|reflexivity].
    apply pure_bind; [reflexivity|]. intros le.
    apply pure_bind; reflexivity.
  - intros ->. reflexivity.
Qed.

Lemma poll_fails_well thread run st : fails_well (poll up thread run st).
Proof.
  remember (maxAttempts - attempts st)%nat as n eqn:Hn.
  revert st Hn. induction n as [n IH] using lt_wf_ind. intros st Hn.
  rewrite poll_step. destruct (loop_cond st) eqn:Hc;
    [|apply fails_well_pure; reflexivity].
  apply loop_cond_attempts in Hc.
  apply fails_well_bind_after; [apply loop_body_fails_well|].
  intros st' Hout.
  assert (attempts st' = S (attempts st)) as Ha.
  { destruct (loop_body up thread run st) as [t r] eqn:Hb.
    unfold outcome in Hout. cbn [snd] in Hout. subst r.
    eapply loop_body_attempts. exact Hb. }
  apply (IH (maxAttempts - attempts st')%nat); [lia|reflexivity].
Qed.

Lemma fetch_and_extract_fails_well thread :
  fails_well (fetch_and_extract up thread).
Proof.
  unfold fetch_and_extract. apply fails_well_fetch_then; intros resp.
  - destruct (negb (ok resp)); [reflexivity|].
    apply pure_bind; [apply json_pure|]. intros d.
    apply pure_bind; [reflexivity|]. intros data.
    apply pure_bind; [apply as_array_pure|]. intros msgs.
    apply pure_bind; [apply find_assistant_pure|]. intros m.
    destruct (negb (truthy m)); [reflexivity|].
    apply pure_bind; [reflexivity|]. intros content.
    apply response_text_pure.
  - intros ->. reflexivity.
Qed.

Lemma complete_fails_well message threadId assistant_id :
  fails_well (Assistant.complete up message threadId assistant_id).
Proof.
  unfold Assistant.complete.
  apply fails_well_bind; [apply resolve_thread_fails_well|]. intros thread.
  apply fails_well_bind; [apply add_message_fails_well|]. intros _.
  apply fails_well_bind; [apply start_run_fails_well|]. intros run.
  apply fails_well_bind; [apply poll_fails_well|]. intros st.
  unfold after_poll.
  destruct (negb (str_is (runStatus st) (js "completed")));
    [apply fails_well_pure; reflexivity|].
  apply fails_well_bind; [apply fetch_and_extract_fails_well|]. intros text.
  apply fails_well_pure. reflexivity.
Qed.

(** Variant B: a failed call gives 500 with the error of that call. *)
Lemma assistant_failure type_error_text env reqBody c resp :
  failed_with (fst (Assistant.chat type_error_text env up reqBody)) c resp ->
  snd (Assistant.chat type_error_text env up reqBody)
  = internal_error type_error_text (Error (failure_message c resp)).
Proof.
  unfold Assistant.chat. rewrite trace_try_catch.
  destruct (invalid_message _); [intros [[] _]|].
  destruct (OPENAI_ASSISTANT_ID env) as [[|x a]|]; try (intros [[] _]).
  intros Hfail. apply complete_fails_well in Hfail.
  destruct (Assistant.complete up _ _ _) as [t r].
  unfold outcome in Hfail. cbn [snd] in Hfail. subst r. reflexivity.
Qed.

End UpstreamFailures.

Lemma stateless_failure type_error_text env completion reqBody c resp :
  failed_with (fst (Stateless.chat type_error_text env completion reqBody))
    c resp ->
  snd (Stateless.chat type_error_text env completion reqBody)
  = relayed_failure type_error_text resp.
Proof.
  unfold Stateless.chat. rewrite trace_try_catch.
  destruct (invalid_message _); [intros [[] _]|].
  rewrite complete_trace. unfold Stateless.complete.
  pose proof (build_messages_pure
                (default JUndefined (reqBody !! js "message"))
                (default JUndefined (reqBody !! js "conversationHistory")))
    as Hpure.
  destruct (Stateless.build_messages _ _) as [t [e|messages]];
    cbn [outcome snd]; [intros [[] _]|].
  unfold trace in Hpure. cbn [fst] in Hpure. subst t.
  intros [[[= _ ->]|[]] Hok].
  rewrite (bind_returns _ _ [] messages eq_refl). cbn [fetch].
  rewrite (bind_returns _ _ _ _ eq_refl).
  rewrite Hok. cbn [negb]. rewrite reply_try_catch. cbn [outcome snd].
  unfold relayed_failure, Stateless.upstream_error, json, upstream_message.
  destruct (payload resp) as [m|d]; [reflexivity|].
  rewrite ret_bind, lift_bind.
  destruct (nullish d) eqn:Hd.
  - destruct d; try discriminate; reflexivity.
  - destruct (get_total d (js "error") Hd) as [err ->].
    destruct (get_opt_total err (js "message")) as [msg ->].
    rewrite lift_bind. reflexivity.
Qed.

(** C1, as the code has it.  When an upstream call gets a non-success status:
    Variant A sends back the upstream's own status code with
    [{error: "Error from OpenAI API", details}], where [details] is the
    upstream's [error.message] when that is truthy and "Unknown error"
    otherwise (if the error body cannot be read, the catch-all sends 500 with
    [{error, message}]).  Variant B sends status 500 with
    [{error: "Internal server error", message}], where [message] is the
    error thrown for the failed call, and no [details] field. *)
Theorem upstream_failure_replies
  (type_error_text : list N -> list N) (env : Env) (completion : FetchResult)
  (up : Assistant.Upstream) (reqBody : gmap (list N) JsVal)
  (c : Call) (resp : Response) :
  (failed_with (fst (Stateless.chat type_error_text env completion reqBody))
     c resp ->
   snd (Stateless.chat type_error_text env completion reqBody)
   = match payload resp with
     | inl m => internal_error type_error_text (Error m)
     | inr errorData =>
         if nullish errorData
         then internal_error type_error_text (TypeError (js "error"))
         else {| code := status resp;
                 body := object
                   [(js "error", JStr (js "Error from OpenAI API"));
                    (js "details",
                     or_else (upstream_message errorData)
                       (JStr (js "Unknown error")))] |}
     end)
  /\ (failed_with (fst (Assistant.chat type_error_text env up reqBody))
        c resp ->
      snd (Assistant.chat type_error_text env up reqBody)
      = {| code := 500;
           body := object
             [(js "error", JStr (js "Internal server error"));
              (js "message", JStr (failure_message c resp))] |}
      /\ body (snd (Assistant.chat type_error_text env up reqBody))
           !! js "details" = None).
Proof.
  split.
  - apply stateless_failure.
  - intros H. apply assistant_failure in H.
    split; [exact H|]. rewrite H. reflexivity.
Qed.

Lemma upstream_failure_replies_witness :
  snd (Stateless.chat plain example_env
         (upstream_says 401 "Incorrect API key") (says "hola"))
  = {| code := 401;
       body := object
         [(js "error", JStr (js "Error from OpenAI API"));
          (js "details", JStr (js "Incorrect API key"))] |}
  /\ snd (Assistant.chat plain example_env run_refused (says "hola"))
     = {| code := 500;
          body := object
            [(js "error", JStr (js "Internal server error"));
             (js "message", JStr (js "Failed to run assistant"))] |}.
Proof.
  split.
  - refine (proj1 (upstream_failure_replies plain example_env
              (upstream_says 401 "Incorrect API key") run_refused
              (says "hola")
              (Stateless.completion_call example_env
                 [Stateless.system_message; turn "user" "hola"])
              {| status := 401;
                 payload := inr (JObj (object [(js "error",
                   JObj (object [(js "message",
                     JStr (js "Incorrect API key"))]))])) |}) _).
    split; [left; reflexivity|reflexivity].
  - refine (proj1 (proj2 (upstream_failure_replies plain example_env
              (upstream_says 401 "Incorrect API key") run_refused
              (says "hola")
              (CreateRun (JStr (js "thread_1")) (js "asst_1"))
              {| status := 404;
                 payload := inr (JObj (object [(js "error",
                   JObj (object [(js "message",
                     JStr (js "No assistant found"))]))])) |}) _)).
    split; [right; right; left; reflexivity|reflexivity].
Defined.

(** C1 as stated fails in both variants: Variant A passes a 401 on as 401,
    and Variant B answers a refused run with 500 but without [details], its
    [message] being the fixed text and not what the upstream said. *)
Lemma upstream_failure_is_not_500_with_details :
  fst (Stateless.chat plain example_env
         (upstream_says 401 "Incorrect API key") (says "hola"))
  = [Fetch (Stateless.completion_call example_env
              [Stateless.system_message; turn "user" "hola"])
       (upstream_says 401 "Incorrect API key")]
  /\ code (snd (Stateless.chat plain example_env
                  (upstream_says 401 "Incorrect API key") (says "hola")))
     = 401
  /\ last (fst (Assistant.chat plain example_env run_refused (says "hola")))
     = Some (Fetch (CreateRun (JStr (js "thread_1")) (js "asst_1"))
               (upstream_says 404 "No assistant found"))
  /\ body (snd (Assistant.chat plain example_env run_refused (says "hola")))
       !! js "details" = None
  /\ body (snd (Assistant.chat plain example_env run_refused (says "hola")))
       !! js "message" = Some (JStr (js "Failed to run assistant")).
Proof. repeat split; vm_compute; reflexivity. Qed.

(** * Further properties of the two servers *)

(** ** Which requests are accepted, and what codes are sent *)

Lemma invalid_not_acceptable v : invalid_message v = negb (acceptable v).
Proof.
  unfold invalid_message.
  destruct v as [| | | | [|c s] | |]; cbn [is_string acceptable negb];
    rewrite ?orb_true_r; reflexivity.
Qed.

Lemma complete_code up message threadId assistant_id reply :
  outcome (Assistant.complete up message threadId assistant_id) = inr reply ->
  code reply = 200.
Proof. intros H. apply complete_success in H as [H _]. exact H. Qed.

(** X1.  Variant B, assistant not configured: a request with an acceptable
    message, served while [OPENAI_ASSISTANT_ID] is unset or empty, gets 500
    with "Assistant ID not configured" and no upstream call is made. *)
Theorem not_configured_no_call
  (type_error_text : list N -> list N) (env : Env) (up : Assistant.Upstream)
  (reqBody : gmap (list N) JsVal) :
  acceptable (requested reqBody "message") = true ->
  OPENAI_ASSISTANT_ID env = None \/ OPENAI_ASSISTANT_ID env = Some [] ->
  Assistant.chat type_error_text env up reqBody
  = ([], {| code := 500;
            body := object
              [(js "error", JStr (js "Assistant ID not configured"))] |}).
Proof.
  intros Hm Hc. unfold Assistant.chat. fold (requested reqBody "message").
  rewrite invalid_not_acceptable, Hm. cbn [negb].
  destruct Hc as [-> | ->]; reflexivity.
Qed.

Lemma not_configured_no_call_witness :
  Assistant.chat plain
    {| OPENAI_API_KEY := Some (js "sk-test"); OPENAI_MODEL := None;
       OPENAI_TEMPERATURE := None; OPENAI_MAX_TOKENS := None;
       OPENAI_ASSISTANT_ID := Some [] |}
    (upstream_with four_statuses) (says "hola")
  = ([], Assistant.not_configured).
Proof.
  apply (not_configured_no_call plain _ (upstream_with four_statuses)
           (says "hola")); [reflexivity|right; reflexivity].
Defined.

(** X2.  Variant B never sends a status other than 200, 400 or 500, whatever
    the request and whatever the upstream does. *)
Theorem assistant_codes
  (type_error_text : list N -> list N) (env : Env) (up : Assistant.Upstream)
  (reqBody : gmap (list N) JsVal) :
  code (snd (Assistant.chat type_error_text env up reqBody)) = 200
  \/ code (snd (Assistant.chat type_error_text env up reqBody)) = 400
  \/ code (snd (Assistant.chat type_error_text env up reqBody)) = 500.
Proof.
  unfold Assistant.chat. rewrite reply_try_catch.
  destruct (invalid_message _); [right; left; reflexivity|].
  destruct (OPENAI_ASSISTANT_ID env) as [[|c a]|];
    try (right; right; reflexivity).
  destruct (outcome (Assistant.complete up _ _ _)) as [e|reply] eqn:H.
  - right; right; reflexivity.
  - left. eapply complete_code. exact H.
Qed.

Lemma stateless_reply_not_validation env completion message history reply :
  outcome (Stateless.complete env completion message history) = inr reply ->
  body reply !! js "error"
  <> Some (JStr (js "Message is required and must be a string")).
Proof.
  unfold Stateless.complete. intros H.
  apply outcome_bind_inr in H as (messages & _ & H).
  apply outcome_bind_inr in H as (resp & _ & H).
  destruct (negb (ok resp)).
  - unfold Stateless.upstream_error in H.
    apply outcome_bind_inr in H as (d & _ & H).
    apply outcome_bind_inr in H as (e & _ & H).
    apply outcome_bind_inr in H as (m & _ & H).
    injection H as <-. vm_compute. discriminate.
  - unfold Stateless.success in H.
    apply outcome_bind_inr in H as (d & _ & H).
    apply outcome_bind_inr in H as (x1 & _ & H).
    apply outcome_bind_inr in H as (x2 & _ & H).
    apply outcome_bind_inr in H as (x3 & _ & H).
    apply outcome_bind_inr in H as (x4 & _ & H).
    apply outcome_bind_inr in H as (x5 & _ & H).
    apply outcome_bind_inr in H as (x6 & _ & H).
    injection H as <-. vm_compute. discriminate.
Qed.

(** X3.  The validation reply is sent exactly for the messages that are not
    a non-empty string (so also for the empty string): Variant A sends it if
    and only if the message is not acceptable, and Variant B sends status 400
    if and only if the message is not acceptable. *)
Theorem validation_exact
  (type_error_text : list N -> list N) (env : Env)
  (completion : FetchResult) (up : Assistant.Upstream)
  (reqBody : gmap (list N) JsVal) :
  (snd (Stateless.chat type_error_text env completion reqBody)
   = validation_reply
   <-> acceptable (requested reqBody "message") = false)
  /\ (code (snd (Assistant.chat type_error_text env up reqBody)) = 400
      <-> acceptable (requested reqBody "message") = false).
Proof.
  split.
  - unfold Stateless.chat. fold (requested reqBody "message").
    rewrite reply_try_catch, invalid_not_acceptable.
    destruct (acceptable (requested reqBody "message")); cbn [negb].
    + split; [|discriminate]. intros H. exfalso.
      destruct (outcome (Stateless.complete env completion _ _))
        as [e|reply] eqn:Hc.
      * apply (f_equal code) in H. discriminate.
      * apply stateless_reply_not_validation in Hc. apply Hc.
        rewrite H. reflexivity.
    + split; reflexivity.
  - unfold Assistant.chat. fold (requested reqBody "message").
    rewrite reply_try_catch, invalid_not_acceptable.
    destruct (acceptable (requested reqBody "message")); cbn [negb].
    + split; [|discriminate]. intros H. exfalso.
      destruct (OPENAI_ASSISTANT_ID env) as [[|c a]|]; try discriminate.
      destruct (outcome (Assistant.complete up _ _ _)) as [e|reply] eqn:Hc;
        [discriminate|].
      apply complete_code in Hc. cbn [outcome snd] in H. congruence.
    + split; reflexivity.
Qed.

(** ** The health route and the new-thread route of Variant B *)

(** X4.  The health route and the chat route agree on the configuration: for
    a request with an acceptable message, the health reply (status 200) says
    "not configured" exactly when the chat route answers with its
    "Assistant ID not configured" reply. *)
Theorem health_agrees_with_chat
  (type_error_text : list N -> list N) (env : Env) (up : Assistant.Upstream)
  (reqBody : gmap (list N) JsVal) (timestamp : list N) :
  acceptable (requested reqBody "message") = true ->
  code (Assistant.health env timestamp) = 200
  /\ (body (Assistant.health env timestamp) !! js "assistant_id"
      = Some (JStr (js "not configured"))
      <-> snd (Assistant.chat type_error_text env up reqBody)
          = Assistant.not_configured).
Proof.
  intros Hm. split; [reflexivity|].
  unfold Assistant.chat, Assistant.health. fold (requested reqBody "message").
  rewrite reply_try_catch, invalid_not_acceptable, Hm. cbn [negb body].
  destruct (OPENAI_ASSISTANT_ID env) as [[|c a]|];
    try (split; reflexivity).
  split; [intros H; vm_compute in H; discriminate|].
  intros H. exfalso.
  destruct (outcome (Assistant.complete up _ _ _)) as [e|reply] eqn:Hc.
  - apply (f_equal (fun r => body r !! js "message")) in H.
    vm_compute in H. discriminate.
  - apply complete_code in Hc. rewrite H in Hc. discriminate.
Qed.

Lemma health_agrees_with_chat_witness :
  body (Assistant.health example_env (js "2024-01-01T00:00:00.000Z"))
    !! js "assistant_id" = Some (JStr (js "configured"))
  /\ snd (Assistant.chat plain example_env (upstream_with four_statuses)
            (says "hola")) <> Assistant.not_configured.
Proof.
  split; [reflexivity|].
  destruct (health_agrees_with_chat plain example_env
              (upstream_with four_statuses) (says "hola")
              (js "2024-01-01T00:00:00.000Z") eq_refl) as [_ [_ H]].
  intros Hn. apply H in Hn. vm_compute in Hn. discriminate.
Defined.

(** X5.  The new-thread route makes exactly one upstream call, the "create
    thread" one.  It answers 200 with the identifier the upstream returned
    when that call got a success status and a body with an [id] that can be
    read; in every other case (rejected fetch, non-success status, body that
    does not parse or is [null]) it answers 500 with the one fixed error. *)
Theorem new_thread_reply (up : Assistant.Upstream) :
  fst (Assistant.new_thread up)
  = [Fetch CreateThread (Assistant.on_create_thread up)]
  /\ snd (Assistant.new_thread up)
     = match created_id (Assistant.on_create_thread up) with
       | Some id =>
           {| code := 200; body := object [(js "threadId", id)] |}
       | None =>
           {| code := 500;
              body := object
                [(js "error", JStr (js "Failed to create new thread"))] |}
       end.
Proof.
  unfold Assistant.new_thread, Assistant.create_thread, created_id.
  unfold fetch, json, lift, throw.
  destruct (Assistant.on_create_thread up) as [m|resp]; [split; reflexivity|].
  rewrite (bind_returns _ _ _ _ eq_refl). unfold trace, outcome.
  destruct (ok resp); cbn [negb fst snd app]; [|split; reflexivity].
  destruct (payload resp) as [m|d]; [split; reflexivity|].
  rewrite ret_bind.
  destruct (get d (js "id")) as [e|id]; split; reflexivity.
Qed.

Lemma chat_posts_to_given_thread type_error_text env up reqBody c a :
  invalid_message (requested reqBody "message") = false ->
  OPENAI_ASSISTANT_ID env = Some (c :: a) ->
  truthy (requested reqBody "threadId") = true ->
  head (fst (Assistant.chat type_error_text env up reqBody))
  = Some (Fetch (AddMessage (requested reqBody "threadId")
                   (requested reqBody "message"))
            (Assistant.on_add_message up)).
Proof.
  intros Hv Hc Ht.
  rewrite (chat_is_complete type_error_text env up reqBody c a Hv Hc).
  rewrite trace_try_catch. unfold Assistant.complete, Assistant.resolve_thread.
  rewrite Ht. cbn [negb]. rewrite ret_bind, trace_bind, add_message_trace.
  reflexivity.
Qed.

(** X6.  A chat request (acceptable message, assistant configured) that
    supplies a truthy [threadId] that can be printed into the URL (a
    non-empty string, for instance) creates no thread, its first upstream
    call posts the message to that very thread, and a successful reply
    returns the same identifier.  So a thread handed out by the new-thread
    route is continued when the client sends its identifier back. *)
Theorem supplied_thread_gets_message
  (type_error_text : list N -> list N) (env : Env)
  (up : Assistant.Upstream) (reqBody : gmap (list N) JsVal)
  (id : JsVal) (c : N) (a : list N) :
  reqBody !! js "threadId" = Some id ->
  truthy id = true ->
  printable id = true ->
  acceptable (requested reqBody "message") = true ->
  OPENAI_ASSISTANT_ID env = Some (c :: a) ->
  count is_create_thread
    (fst (Assistant.chat type_error_text env up reqBody)) = 0%nat
  /\ head (fst (Assistant.chat type_error_text env up reqBody))
     = Some (Fetch (AddMessage id (requested reqBody "message"))
               (Assistant.on_add_message up))
  /\ (code (snd (Assistant.chat type_error_text env up reqBody)) = 200 ->
      body (snd (Assistant.chat type_error_text env up reqBody))
        !! js "threadId" = Some id).
Proof.
  intros Hreq Hid _ Hm Hc.
  assert (invalid_message (requested reqBody "message") = false) as Hv
    by (rewrite invalid_not_acceptable, Hm; reflexivity).
  assert (requested reqBody "threadId" = id) as Hr
    by (unfold requested; rewrite Hreq; reflexivity).
  pose proof (chat_creates type_error_text env up reqBody c a Hv Hc) as Hn.
  pose proof (chat_success_thread type_error_text env up reqBody c a Hv Hc)
    as Hs.
  pose proof (chat_posts_to_given_thread type_error_text env up reqBody c a
                Hv Hc) as Hh.
  rewrite Hr in *. rewrite Hid in *.
  split; [exact Hn|]. split; [apply Hh; reflexivity|].
  intros H200. destruct (Hs H200) as (thread & Hb & ->). exact Hb.
Qed.

Lemma supplied_thread_gets_message_witness :
  body (snd (Assistant.new_thread (upstream_with four_statuses)))
    !! js "threadId" = Some (JStr (js "thread_1"))
  /\ head (fst (Assistant.chat plain example_env
                  (upstream_with four_statuses)
                  (says_in "hola" (JStr (js "thread_1")))))
     = Some (Fetch (AddMessage (JStr (js "thread_1")) (JStr (js "hola")))
               (answers 200 (JObj ∅))).
Proof.
  split; [reflexivity|].
  destruct (supplied_thread_gets_message plain example_env
              (upstream_with four_statuses)
              (says_in "hola" (JStr (js "thread_1")))
              (JStr (js "thread_1")) 97%N (js "sst_1")
              eq_refl eq_refl eq_refl eq_refl eq_refl) as (_ & H & _).
  exact H.
Defined.

(** ** The upstream calls of one Variant B request *)

Section CallBudget.
Import Assistant.
Variable up : Upstream.

Lemma fetches_iterations thread run k n :
  count is_fetch (iterations up thread run k n) = n.
Proof.
  revert k. induction n as [|n IH]; intros k; [reflexivity|].
  specialize (IH (S k)). unfold count in *. simpl. rewrite IH. reflexivity.
Qed.

Lemma fetches_complete message threadId assistant_id :
  (count is_fetch
     (trace (Assistant.complete up message threadId assistant_id))
   <= 64)%nat.
Proof.
  unfold Assistant.complete.
  change 64%nat with (1 + (1 + (1 + (60 + 1))))%nat.
  apply count_bind_le.
  { rewrite resolve_thread_trace. destruct (truthy threadId); cbn; lia. }
  intros thread. apply count_bind_le.
  { rewrite add_message_trace. reflexivity. }
  intros _. apply count_bind_le.
  { rewrite start_run_trace. reflexivity. }
  intros run. apply count_bind_le.
  { destruct (poll_shape up thread run queued) as (n & Hn & -> & _).
    rewrite fetches_iterations. unfold maxAttempts, queued in Hn.
    cbn [attempts] in Hn. lia. }
  intros st. rewrite after_poll_trace.
  destruct (str_is (runStatus st) (js "completed")); cbn; lia.
Qed.

Lemma paced_bind {A B} (m : M A) (f : A -> M B) :
  paced m -> (forall a, paced (f a)) -> paced (m ≫= f).
Proof.
  unfold paced. intros Hm Hf. rewrite !count_bind, Hm.
  destruct (outcome m) as [e|a]; [reflexivity|]. rewrite Hf. reflexivity.
Qed.

Lemma paced_complete message threadId assistant_id :
  paced (Assistant.complete up message threadId assistant_id).
Proof.
  unfold Assistant.complete. apply paced_bind.
  { unfold paced. rewrite resolve_thread_trace.
    destruct (truthy threadId); reflexivity. }
  intros thread. apply paced_bind.
  { unfold paced. rewrite add_message_trace. reflexivity. }
  intros _. apply paced_bind.
  { unfold paced. rewrite start_run_trace. reflexivity. }
  intros run. apply paced_bind.
  { unfold paced.
    destruct (poll_shape up thread run queued) as (n & _ & -> & _).
    rewrite sleeps_iterations, status_fetches_iterations. reflexivity. }
  intros st. unfold paced. rewrite after_poll_trace.
  destruct (str_is (runStatus st) (js "completed")); reflexivity.
Qed.

End CallBudget.

(** X7.  One Variant B chat request makes at most 64 upstream calls.  It
    never fetches a status without having slept a second before, and it
    sleeps at most 60 times.  When the run identifier the upstream returns
    can be printed into the URL, it sleeps exactly once per status fetch. *)
Theorem assistant_call_budget
  (type_error_text : list N -> list N) (env : Env) (up : Assistant.Upstream)
  (reqBody : gmap (list N) JsVal) :
  (count is_fetch (fst (Assistant.chat type_error_text env up reqBody))
   <= 64)%nat
  /\ (count is_status_fetch
        (fst (Assistant.chat type_error_text env up reqBody))
      <= count is_one_second
           (fst (Assistant.chat type_error_text env up reqBody)))%nat
  /\ (count is_one_second
        (fst (Assistant.chat type_error_text env up reqBody)) <= 60)%nat
  /\ ((forall run,
         created_id (Assistant.on_create_run up) = Some run ->
         printable run = true) ->
      count is_one_second
        (fst (Assistant.chat type_error_text env up reqBody))
      = count is_status_fetch
          (fst (Assistant.chat type_error_text env up reqBody))).
Proof.
  assert (count is_one_second
            (fst (Assistant.chat type_error_text env up reqBody))
          = count is_status_fetch
              (fst (Assistant.chat type_error_text env up reqBody))) as Heq.
  { unfold Assistant.chat. rewrite trace_try_catch.
    destruct (invalid_message _); [reflexivity|].
    destruct (OPENAI_ASSISTANT_ID env) as [[|c a]|]; try reflexivity.
    apply paced_complete. }
  split; [|split; [rewrite Heq; lia|split; [|intros _; exact Heq]]].
  - unfold Assistant.chat. rewrite trace_try_catch.
    destruct (invalid_message _); [cbn; lia|].
    destruct (OPENAI_ASSISTANT_ID env) as [[|c a]|]; try (cbn; lia).
    apply fetches_complete.
  - rewrite Heq. unfold Assistant.chat. rewrite trace_try_catch.
    destruct (invalid_message _); [cbn; lia|].
    destruct (OPENAI_ASSISTANT_ID env) as [[|c a]|]; try (cbn; lia).
    apply status_fetches_complete.
Qed.

Lemma assistant_call_budget_witness :
  count is_one_second
    (fst (Assistant.chat plain example_env (upstream_with four_statuses)
            (says "hola")))
  = count is_status_fetch
      (fst (Assistant.chat plain example_env (upstream_with four_statuses)
              (says "hola"))).
Proof.
  apply (proj2 (proj2 (proj2 (assistant_call_budget plain example_env
           (upstream_with four_statuses) (says "hola"))))).
  intros run H. vm_compute in H. injection H as <-. reflexivity.
Defined.

(** ** A failed call ends the request *)

Lemma halts_pure {A} (m : M A) : trace m = [] -> halts_on_failure m.
Proof. intros H c r msg Hin. rewrite H in Hin. destruct Hin. Qed.

Lemma halts_bind_after {A B} (m : M A) (f : A -> M B) :
  halts_on_failure m ->
  (forall a, outcome m = inr a -> halts_on_failure (f a)) ->
  halts_on_failure (m ≫= f).
Proof.
  intros Hm Hf c r msg Hin Herr. rewrite trace_bind in *.
  rewrite outcome_bind. apply in_app_or in Hin as [Hin|Hin].
  - destruct (Hm c r msg Hin Herr) as [Ho Hl]. rewrite Ho.
    split; [reflexivity|]. rewrite app_nil_r. exact Hl.
  - destruct (outcome m) as [e|a]; [destruct Hin|].
    destruct (Hf a eq_refl c r msg Hin Herr) as [Ho Hl].
    split; [exact Ho|]. rewrite last_app, Hl. reflexivity.
Qed.

Lemma halts_bind {A B} (m : M A) (f : A -> M B) :
  halts_on_failure m -> (forall a, halts_on_failure (f a)) ->
  halts_on_failure (m ≫= f).
Proof. intros Hm Hf. apply halts_bind_after; auto. Qed.

Lemma halts_fetch_then {B} c0 r0 (k : Response -> M B) :
  (forall resp, trace (k resp) = []) ->
  (forall resp, ok resp = false ->
                outcome (k resp) = inl (Error (failure_message c0 resp))) ->
  halts_on_failure (fetch c0 r0 ≫= k).
Proof.
  intros Hpure Hk c r msg Hin Herr.
  rewrite (trace_fetch_then c0 r0 k Hpure) in *.
  destruct Hin as [[= <- <-]|[]]. split; [|reflexivity].
  rewrite outcome_bind. destruct r0 as [m|resp]; cbn [fetch outcome snd].
  - injection Herr as <-. reflexivity.
  - cbn [fetch_error] in Herr. destruct (ok resp) eqn:Hok; [discriminate|].
    injection Herr as <-. apply Hk. exact Hok.
Qed.

Section HaltsOnFailure.
Import Assistant.
Variable up : Upstream.

Lemma resolve_thread_halts threadId :
  halts_on_failure (resolve_thread up threadId).
Proof.
  unfold resolve_thread. destruct (truthy threadId); cbn [negb].
  - apply halts_pure. reflexivity.
  - apply halts_fetch_then; intros resp.
    + destruct (negb (ok resp)); [reflexivity|].
      apply pure_bind; [apply json_pure|]. reflexivity.
    + intros ->. reflexivity.
Qed.

Lemma add_message_halts thread message :
  halts_on_failure (add_message up thread message).
Proof.
  unfold add_message. apply halts_fetch_then; intros resp.
  - destruct (negb (ok resp)); [|reflexivity].
    apply pure_bind; [apply json_pure|]. reflexivity.
  - intros ->. cbn [negb]. unfold json, failure_message.
    destruct (payload resp); reflexivity.
Qed.

Lemma start_run_halts thread assistant_id :
  halts_on_failure (start_run up thread assistant_id).
Proof.
  unfold start_run. apply halts_fetch_then; intros resp.
  - destruct (negb (ok resp));
      (apply pure_bind; [apply json_pure|]); reflexivity.
  - intros ->. cbn [negb]. unfold json, failure_message.
    destruct (payload resp); reflexivity.
Qed.

Lemma loop_body_halts thread run st :
  halts_on_failure (loop_body up thread run st).
Proof.
  unfold loop_body. apply halts_bind;
    [intros c r msg [H|[]] _; discriminate|]. intros _.
  apply halts_fetch_then; intros resp.
  - destruct (negb (ok resp)); [reflexivity|].
    apply pure_bind; [apply json_pure|]. intros d.
    apply pure_bind; [reflexivity|]. intros s.
    destruct (run_ended_badly s); [|reflexivity].
    apply pure_bind; [reflexivity|]. intros le.
    apply pure_bind; reflexivity.
  - intros ->. reflexivity.
Qed.

Lemma poll_halts thread run st : halts_on_failure (poll up thread run st).
Proof.
  remember (maxAttempts - attempts st)%nat as n eqn:Hn.
  revert st Hn. induction n as [n IH] using lt_wf_ind. intros st Hn.
  rewrite poll_step. destruct (loop_cond st) eqn:Hc;
    [|apply halts_pure; reflexivity].
  apply loop_cond_attempts in Hc.
  apply halts_bind_after; [apply loop_body_halts|].
  intros st' Hout.
  assert (attempts st' = S (attempts st)) as Ha.
  { destruct (loop_body up thread run st) as [t r] eqn:Hb.
    unfold outcome in Hout. cbn [snd] in Hout. subst r.
    eapply loop_body_attempts. exact Hb. }
  apply (IH (maxAttempts - attempts st')%nat); [lia|reflexivity].
Qed.

Lemma fetch_and_extract_halts thread :
  halts_on_failure (fetch_and_extract up thread).
Proof.
  unfold fetch_and_extract. apply halts_fetch_then; intros resp.
  - destruct (negb (ok resp)); [reflexivity|].
    apply pure_bind; [apply json_pure|]. intros d.
    apply pure_bind; [reflexivity|]. intros data.
    apply pure_bind; [apply as_array_pure|]. intros msgs.
    apply pure_bind; [apply find_assistant_pure|]. intros m.
    destruct (negb (truthy m)); [reflexivity|].
    apply pure_bind; [reflexivity|]. intros content.
    apply response_text_pure.
  - intros ->. reflexivity.
Qed.

Lemma complete_halts message threadId assistant_id :
  halts_on_failure (Assistant.complete up message threadId assistant_id).
Proof.
  unfold Assistant.complete.
  apply halts_bind; [apply resolve_thread_halts|]. intros thread.
  apply halts_bind; [apply add_message_halts|]. intros _.
  apply halts_bind; [apply start_run_halts|]. intros run.
  apply halts_bind; [apply poll_halts|]. intros st.
  unfold after_poll.
  destruct (negb (str_is (runStatus st) (js "completed")));
    [apply halts_pure; reflexivity|].
  apply halts_bind; [apply fetch_and_extract_halts|]. intros text.
  apply halts_pure. reflexivity.
Qed.

End HaltsOnFailure.

(** X8.  In Variant B a call that went wrong ends the request: when a fetch
    of the trace was rejected (network failure) or got a non-success status,
    it is the last event of the trace, so no further upstream call and no
    further sleep follows, and the reply is 500 with
    [{error: "Internal server error", message}], [message] being the
    rejection's message or the error thrown for that call. *)
Theorem failed_call_ends_request
  (type_error_text : list N -> list N) (env : Env) (up : Assistant.Upstream)
  (reqBody : gmap (list N) JsVal) (c : Call) (r : FetchResult)
  (msg : list N) :
  In (Fetch c r) (fst (Assistant.chat type_error_text env up reqBody)) ->
  fetch_error c r = Some msg ->
  last (fst (Assistant.chat type_error_text env up reqBody))
  = Some (Fetch c r)
  /\ snd (Assistant.chat type_error_text env up reqBody)
     = {| code := 500;
          body := object
            [(js "error", JStr (js "Internal server error"));
             (js "message", JStr msg)] |}.
Proof.
  unfold Assistant.chat. rewrite trace_try_catch, reply_try_catch.
  destruct (invalid_message _); [intros []|].
  destruct (OPENAI_ASSISTANT_ID env) as [[|x a]|]; try (intros []).
  intros Hin Herr.
  destruct (complete_halts up _ _ _ c r msg Hin Herr) as [Ho Hl].
  rewrite Ho. split; [exact Hl|reflexivity].
Qed.

Lemma failed_call_ends_request_witness :
  last (fst (Assistant.chat plain example_env
               (upstream_with
                  (fun k => match k with
                            | 1%nat => Rejects (js "socket hang up")
                            | _ => run_in "in_progress"
                            end))
               (says "hola")))
  = Some (Fetch (GetRun (JStr (js "thread_1")) (JStr (js "run_1")))
            (Rejects (js "socket hang up")))
  /\ body (snd (Assistant.chat plain example_env
                  (upstream_with
                     (fun k => match k with
                               | 1%nat => Rejects (js "socket hang up")
                               | _ => run_in "in_progress"
                               end))
                  (says "hola"))) !! js "message"
     = Some (JStr (js "socket hang up")).
Proof.
  destruct (failed_call_ends_request plain example_env
              (upstream_with
                 (fun k => match k with
                           | 1%nat => Rejects (js "socket hang up")
                           | _ => run_in "in_progress"
                           end))
              (says "hola")
              (GetRun (JStr (js "thread_1")) (JStr (js "run_1")))
              (Rejects (js "socket hang up")) (js "socket hang up"))
    as [Hl Hr].
  - vm_compute. do 6 right. left. reflexivity.
  - reflexivity.
  - split; [exact Hl|]. rewrite Hr. reflexivity.
Defined.

(** ** A successful Variant B request *)

Section Success.
Import Assistant.
Variable up : Upstream.

Lemma start_run_outcome thread assistant_id run :
  outcome (start_run up thread assistant_id) = inr run ->
  created_id (on_create_run up) = Some run.
Proof.
  unfold start_run, created_id, fetch, json, lift, throw.
  destruct (on_create_run up) as [m|resp]; [discriminate|].
  rewrite outcome_bind. cbn [outcome snd].
  destruct (ok resp); cbn [negb].
  - destruct (payload resp) as [m|d]; [discriminate|].
    rewrite ret_bind. cbn [outcome snd].
    destruct (get d (js "id")); [discriminate|]. intros [= <-]. reflexivity.
  - destruct (payload resp) as [m|d]; [discriminate|].
    rewrite ret_bind. discriminate.
Qed.

(** The loop does not end well without a fetch. *)
Lemma poll_returns_after_fetch thread run t st :
  poll up thread run queued = (t, inr st) ->
  exists n, (1 <= n <= 60)%nat /\ t = iterations up thread run 0 n.
Proof.
  intros Hp.
  destruct (poll_shape up thread run queued) as (n & Hn & Ht & Hout).
  rewrite Hp in Ht. unfold trace in Ht. cbn [fst attempts queued] in Ht.
  unfold maxAttempts, queued in Hn. cbn [attempts] in Hn.
  exists n. split; [|exact Ht]. split; [|lia].
  destruct n as [|n]; [|lia]. exfalso.
  rewrite poll_step in Hp.
  assert (loop_cond queued = true) as Hc by reflexivity. rewrite Hc in Hp.
  pose proof (loop_body_trace up thread run queued) as Hb.
  destruct (loop_body up thread run queued) as [tb [e|st1]];
    [discriminate|].
  rewrite (bind_returns _ _ _ _ eq_refl) in Hp.
  unfold trace in Hb. cbn [fst] in Hb. subst tb.
  injection Hp as Hp _. subst t. discriminate.
Qed.

Lemma response_text_stripped content text :
  outcome (response_text content) = inr text ->
  exists s, text = strip_citations s.
Proof.
  unfold response_text. intros H.
  apply outcome_bind_inr in H as (segments & _ & H).
  apply outcome_bind_inr in H as (texts & _ & H).
  apply outcome_bind_inr in H as (values & _ & H).
  injection H as <-. eexists. reflexivity.
Qed.

Lemma fetch_and_extract_stripped thread text :
  outcome (fetch_and_extract up thread) = inr text ->
  has_marker text = false.
Proof.
  unfold fetch_and_extract. intros H.
  apply outcome_bind_inr in H as (resp & _ & H).
  destruct (negb (ok resp)); [discriminate|].
  apply outcome_bind_inr in H as (d & _ & H).
  apply outcome_bind_inr in H as (data & _ & H).
  apply outcome_bind_inr in H as (msgs & _ & H).
  apply outcome_bind_inr in H as (m & _ & H).
  destruct (negb (truthy m)); [discriminate|].
  apply outcome_bind_inr in H as (content & _ & H).
  apply response_text_stripped in H as [s ->].
  apply strip_has_no_marker.
Qed.

(** What a run of [complete] that returns a reply went through. *)
Lemma complete_returns message threadId assistant_id t reply :
  Assistant.complete up message threadId assistant_id = (t, inr reply) ->
  exists thread run n text,
    outcome (resolve_thread up threadId) = inr thread
    /\ created_id (on_create_run up) = Some run
    /\ (1 <= n <= 60)%nat
    /\ t = trace (resolve_thread up threadId)
           ++ [Fetch (AddMessage thread message) (on_add_message up);
               Fetch (CreateRun thread assistant_id) (on_create_run up)]
           ++ iterations up thread run 0 n
           ++ [Fetch (ListMessages thread) (on_list_messages up)]
    /\ has_marker text = false
    /\ reply = {| code := 200;
                  body := object [(js "response", JStr text);
                                  (js "threadId", thread);
                                  (js "runId", run)] |}.
Proof.
  unfold Assistant.complete.
  pose proof (resolve_thread_trace up threadId) as H1.
  destruct (resolve_thread up threadId) as [t1 [e|thread]] eqn:E1;
    [discriminate|].
  rewrite (bind_returns _ _ _ _ eq_refl).
  pose proof (add_message_trace up thread message) as H2.
  destruct (add_message up thread message) as [t2 [e|[]]] eqn:E2;
    [discriminate|].
  rewrite (bind_returns _ _ _ _ eq_refl).
  pose proof (start_run_trace up thread assistant_id) as H3.
  pose proof (start_run_outcome thread assistant_id) as Hrun.
  destruct (start_run up thread assistant_id) as [t3 [e|run]] eqn:E3;
    [discriminate|].
  rewrite (bind_returns _ _ _ _ eq_refl).
  destruct (poll up thread run queued) as [t4 [e|st]] eqn:E4;
    [discriminate|].
  rewrite (bind_returns _ _ _ _ eq_refl).
  unfold after_poll.
  destruct (negb (str_is (runStatus st) (js "completed"))); [discriminate|].
  pose proof (fetch_and_extract_trace up thread) as H5.
  pose proof (fetch_and_extract_stripped thread) as Htext.
  destruct (fetch_and_extract up thread) as [t5 [e|text]] eqn:E5;
    [discriminate|].
  rewrite (bind_returns _ _ _ _ eq_refl).
  unfold trace, outcome in *. cbn [fst snd] in *.
  intros [= <- <-].
  destruct (poll_returns_after_fetch thread run t4 st E4) as (n & Hn & ->).
  exists thread, run, n, text. subst t2 t3 t5.
  split; [reflexivity|]. split; [apply Hrun; reflexivity|].
  split; [exact Hn|]. split.
  - cbn [app]. reflexivity.
  - split; [apply Htext; reflexivity|reflexivity].
Qed.

End Success.

(** X9.  The calls of a successful Variant B request.  When the reply has
    status 200, the trace is: the "create thread" call if no truthy
    [threadId] was supplied; the user's message posted to the resolved
    thread; the run started on that thread with the configured assistant;
    between 1 and 60 iterations of sleep-then-fetch for that thread and the
    run the upstream returned; and one listing of that thread's messages.
    The reply carries that thread and that run. *)
Theorem successful_request_calls
  (type_error_text : list N -> list N) (env : Env) (up : Assistant.Upstream)
  (reqBody : gmap (list N) JsVal) :
  code (snd (Assistant.chat type_error_text env up reqBody)) = 200 ->
  exists a thread run n,
    OPENAI_ASSISTANT_ID env = Some a
    /\ (if truthy (requested reqBody "threadId")
        then thread = requested reqBody "threadId"
        else created_id (Assistant.on_create_thread up) = Some thread)
    /\ created_id (Assistant.on_create_run up) = Some run
    /\ (1 <= n <= 60)%nat
    /\ fst (Assistant.chat type_error_text env up reqBody)
       = (if truthy (requested reqBody "threadId") then []
          else [Fetch CreateThread (Assistant.on_create_thread up)])
         ++ [Fetch (AddMessage thread (requested reqBody "message"))
               (Assistant.on_add_message up);
             Fetch (CreateRun thread a) (Assistant.on_create_run up)]
         ++ iterations up thread run 0 n
         ++ [Fetch (ListMessages thread) (Assistant.on_list_messages up)]
    /\ body (snd (Assistant.chat type_error_text env up reqBody))
         !! js "threadId" = Some thread
    /\ body (snd (Assistant.chat type_error_text env up reqBody))
         !! js "runId" = Some run.
Proof.
  unfold Assistant.chat. fold (requested reqBody "message").
  fold (requested reqBody "threadId").
  destruct (invalid_message _); [discriminate|].
  destruct (OPENAI_ASSISTANT_ID env) as [[|c a]|]; try discriminate.
  destruct (Assistant.complete up _ _ _) as [t [e|reply]] eqn:Hc;
    [discriminate|].
  intros _. cbn [try_catch fst snd].
  destruct (complete_returns up _ _ _ _ _ Hc)
    as (thread & run & n & text & Hth & Hrun & Hn & -> & _ & ->).
  exists (c :: a), thread, run, n.
  split; [reflexivity|]. split; [apply resolve_thread_outcome; exact Hth|].
  split; [exact Hrun|]. split; [exact Hn|].
  rewrite resolve_thread_trace. repeat split; reflexivity.
Qed.

Lemma successful_request_calls_witness :
  exists a thread run n,
    OPENAI_ASSISTANT_ID example_env = Some a
    /\ (if truthy (requested (says "hola") "threadId")
        then thread = requested (says "hola") "threadId"
        else created_id
               (Assistant.on_create_thread (upstream_with four_statuses))
             = Some thread)
    /\ created_id (Assistant.on_create_run (upstream_with four_statuses))
       = Some run
    /\ (1 <= n <= 60)%nat
    /\ fst (Assistant.chat plain example_env (upstream_with four_statuses)
              (says "hola"))
       = (if truthy (requested (says "hola") "threadId") then []
          else [Fetch CreateThread
                  (Assistant.on_create_thread (upstream_with four_statuses))])
         ++ [Fetch (AddMessage thread (requested (says "hola") "message"))
               (Assistant.on_add_message (upstream_with four_statuses));
             Fetch (CreateRun thread a)
               (Assistant.on_create_run (upstream_with four_statuses))]
         ++ iterations (upstream_with four_statuses) thread run 0 n
         ++ [Fetch (ListMessages thread)
               (Assistant.on_list_messages (upstream_with four_statuses))]
    /\ body (snd (Assistant.chat plain example_env
                    (upstream_with four_statuses) (says "hola")))
         !! js "threadId" = Some thread
    /\ body (snd (Assistant.chat plain example_env
                    (upstream_with four_statuses) (says "hola")))
         !! js "runId" = Some run.
Proof.
  apply (successful_request_calls plain example_env
           (upstream_with four_statuses) (says "hola")).
  reflexivity.
Defined.

(** X10.  The text of a successful Variant B reply is a string that holds no
    citation marker: no opening bracket with a closing bracket behind it. *)
Theorem successful_reply_has_no_marker
  (type_error_text : list N -> list N) (env : Env) (up : Assistant.Upstream)
  (reqBody : gmap (list N) JsVal) :
  code (snd (Assistant.chat type_error_text env up reqBody)) = 200 ->
  exists text,
    body (snd (Assistant.chat type_error_text env up reqBody))
      !! js "response" = Some (JStr text)
    /\ has_marker text = false.
Proof.
  unfold Assistant.chat.
  destruct (invalid_message _); [discriminate|].
  destruct (OPENAI_ASSISTANT_ID env) as [[|c a]|]; try discriminate.
  destruct (Assistant.complete up _ _ _) as [t [e|reply]] eqn:Hc;
    [discriminate|].
  intros _. cbn [try_catch snd].
  destruct (complete_returns up _ _ _ _ _ Hc)
    as (thread & run & n & text & _ & _ & _ & _ & Htext & ->).
  exists text. split; [reflexivity|exact Htext].
Qed.

Lemma successful_reply_has_no_marker_witness :
  exists text,
    body (snd (Assistant.chat plain example_env (upstream_with four_statuses)
                 (says "hola")))
      !! js "response" = Some (JStr text)
    /\ has_marker text = false.
Proof.
  apply (successful_reply_has_no_marker plain example_env
           (upstream_with four_statuses) (says "hola")).
  reflexivity.
Defined.

(** ** More on the removal of citation markers *)

Lemma after_close_some s r :
  Assistant.after_close s = Some r ->
  existsb (N.eqb Assistant.close_mark) s = true.
Proof.
  intros H. destruct (existsb (N.eqb Assistant.close_mark) s) eqn:E;
    [reflexivity|].
  apply after_close_none in E. congruence.
Qed.

Lemma strip_unmarked s :
  has_marker s = false -> Assistant.strip_citations s = s.
Proof.
  apply (strip_scan (fun s out => has_marker s = false -> out = s)).
  - reflexivity.
  - intros c rest r Hm _ Hno. exfalso.
    cbn [Assistant.marker_at] in Hm. cbn [has_marker] in Hno.
    destruct (N.eqb c Assistant.open_mark); [|discriminate].
    apply after_close_some in Hm. rewrite Hm in Hno. discriminate.
  - intros c rest _ IH Hno. cbn [has_marker] in Hno.
    apply orb_false_elim in Hno as [_ Hno]. rewrite (IH Hno). reflexivity.
Qed.

Lemma strip_not_longer s :
  (length (Assistant.strip_citations s) <= length s)%nat.
Proof.
  apply (strip_scan (fun s out => (length out <= length s)%nat)).
  - reflexivity.
  - intros c rest r Hm IH. apply marker_at_shorter in Hm. lia.
  - intros c rest _ IH. cbn [length]. lia.
Qed.

(** X11.  Removing the markers leaves a text without marker as it is (so an
    opening bracket that is never closed stays), doing it twice is the same
    as doing it once, and the result is never longer than the text. *)
Theorem strip_citations_is_a_cleanup (s : list N) :
  (has_marker s = false -> Assistant.strip_citations s = s)
  /\ Assistant.strip_citations (Assistant.strip_citations s)
     = Assistant.strip_citations s
  /\ (length (Assistant.strip_citations s) <= length s)%nat.
Proof.
  split; [apply strip_unmarked|]. split; [|apply strip_not_longer].
  apply strip_unmarked. apply strip_has_no_marker.
Qed.

Lemma strip_citations_is_a_cleanup_witness :
  Assistant.strip_citations (js "see " ++ [Assistant.open_mark] ++ js "4:0")
  = js "see " ++ [Assistant.open_mark] ++ js "4:0".
Proof.
  apply (proj1 (strip_citations_is_a_cleanup
                  (js "see " ++ [Assistant.open_mark] ++ js "4:0"))).
  reflexivity.
Defined.

(** ** More on the poll loop *)


(** X12.  When the fetches before attempt [k] let the loop go on and the
    [k]-th one reports "completed", for any [k] from 1 to 60 (the last
    attempt included), the loop ends well after exactly [k] iterations and
    the handler's next call lists the thread's messages. *)
Theorem completed_at_any_attempt
  (type_error_text : list N -> list N) (env : Env) (up : Assistant.Upstream)
  (reqBody : gmap (list N) JsVal) (k : nat) :
  (1 <= k <= 60)%nat ->
  (forall i, (i < k - 1)%nat -> pending (Assistant.on_get_run up i) = true) ->
  fetched_status (Assistant.on_get_run up (k - 1))
  = Some (JStr (js "completed")) ->
  (forall thread run,
     Assistant.poll up thread run Assistant.queued
     = (iterations up thread run 0 k,
        inr {| Assistant.runStatus := JStr (js "completed");
               Assistant.attempts := k |}))
  /\ (forall c a t0 thread run,
        invalid_message (requested reqBody "message") = false ->
        OPENAI_ASSISTANT_ID env = Some (c :: a) ->
        prepare up (requested reqBody "message")
          (requested reqBody "threadId") (c :: a) = (t0, inr (thread, run)) ->
        fst (Assistant.chat type_error_text env up reqBody)
        = t0 ++ iterations up thread run 0 k
          ++ [Fetch (ListMessages thread) (Assistant.on_list_messages up)]).
Proof.
  intros Hk Hp Hdone.
  assert (forall thread run,
            Assistant.poll up thread run Assistant.queued
            = (iterations up thread run 0 k,
               inr {| Assistant.runStatus := JStr (js "completed");
                      Assistant.attempts := k |})) as Hpoll.
  { intros thread run. destruct k as [|n]; [lia|].
    replace (S n - 1)%nat with n in * by lia.
    destruct (fetched_report _ _ Hdone) as [d Hd].
    rewrite (poll_last up thread run n Assistant.queued d
               (JStr (js "completed")));
      [reflexivity|reflexivity| | |exact Hd|left; reflexivity].
    - unfold Assistant.queued, Assistant.maxAttempts. simpl. lia.
    - intros i Hi. apply Hp. exact Hi. }
  split; [exact Hpoll|].
  intros c a t0 thread run Hv Hc Hprep.
  rewrite (chat_when_poll_returns type_error_text env up reqBody
             c a t0 thread run Hv Hc Hprep _ _ (Hpoll thread run)).
  rewrite trace_try_catch. unfold trace at 1. cbn [fst].
  rewrite after_poll_trace. reflexivity.
Qed.

Lemma completed_at_any_attempt_witness :
  Assistant.poll
    (upstream_with (fun i => if (i <? 59)%nat then run_in "in_progress"
                             else run_in "completed"))
    (JStr (js "thread_1")) (JStr (js "run_1")) Assistant.queued
  = (iterations
       (upstream_with (fun i => if (i <? 59)%nat then run_in "in_progress"
                                else run_in "completed"))
       (JStr (js "thread_1")) (JStr (js "run_1")) 0 60,
     inr {| Assistant.runStatus := JStr (js "completed");
            Assistant.attempts := 60 |}).
Proof.
  refine (proj1 (completed_at_any_attempt plain example_env
            (upstream_with (fun i => if (i <? 59)%nat then run_in "in_progress"
                                     else run_in "completed"))
            (says "hola") 60 _ _ _) _ _).
  - lia.
  - intros i Hi. cbn [upstream_with Assistant.on_get_run].
    replace (i <? 59)%nat with true; [reflexivity|].
    symmetry. apply Nat.ltb_lt. lia.
  - reflexivity.
Defined.



(** ** Picking the assistant's message *)

Lemma prop_get v k x :
  prop v k = x -> x <> JUndefined -> get v (js k) = inr x.
Proof.
  unfold prop. destruct (get v (js k)) as [e|y]; intros <-; congruence.
Qed.

Lemma get_prop v k : nullish v = false -> get v (js k) = inr (prop v k).
Proof.
  intros H. unfold prop. destruct (get_total v (js k) H) as [x ->].
  reflexivity.
Qed.

Lemma find_assistant_skips pre rest :
  forallb not_assistant pre = true ->
  Assistant.find_assistant (pre ++ rest) = Assistant.find_assistant rest.
Proof.
  induction pre as [|msg pre IH]; [reflexivity|].
  cbn [forallb app Assistant.find_assistant]. intros H.
  apply andb_prop in H as [Hmsg Hpre]. unfold not_assistant in Hmsg.
  apply andb_prop in Hmsg as [Hn Hrole]. apply negb_true_iff in Hn, Hrole.
  rewrite (get_prop msg "role" Hn), lift_bind. rewrite Hrole.
  apply IH. exact Hpre.
Qed.

Lemma find_assistant_here m post :
  str_is (prop m "role") (js "assistant") = true ->
  Assistant.find_assistant (m :: post) = mret m.
Proof.
  intros H. cbn [Assistant.find_assistant].
  rewrite (prop_get m "role" (prop m "role") eq_refl), lift_bind.
  - rewrite H. reflexivity.
  - intros E. rewrite E in H. discriminate.
Qed.

Lemma assistant_is_object m :
  str_is (prop m "role") (js "assistant") = true ->
  truthy m = true /\ nullish m = false.
Proof.
  unfold prop. destruct m; cbn; try discriminate. split; reflexivity.
Qed.

(** X14.  From a listing that parsed, the handler takes the first message
    whose role is "assistant", skipping the messages before it, and turns
    its content into the reply text; when no message of the listing has that
    role it throws "No assistant response found".  Either way the listing is
    the only call of this step. *)
Theorem first_assistant_message_is_used
  (up : Assistant.Upstream) (thread d : JsVal) :
  parsed (Assistant.on_list_messages up) = Some d ->
  (forall pre m post,
     prop d "data" = JArr (pre ++ m :: post) ->
     forallb not_assistant pre = true ->
     str_is (prop m "role") (js "assistant") = true ->
     Assistant.fetch_and_extract up thread
     = ([Fetch (ListMessages thread) (Assistant.on_list_messages up)],
        outcome (Assistant.response_text (prop m "content"))))
  /\ (forall l,
        prop d "data" = JArr l ->
        forallb not_assistant l = true ->
        Assistant.fetch_and_extract up thread
        = ([Fetch (ListMessages thread) (Assistant.on_list_messages up)],
           inl (Error (js "No assistant response found")))).
Proof.
  unfold parsed. intros Hd.
  destruct (Assistant.on_list_messages up) as [e|resp] eqn:Hup;
    [discriminate|].
  destruct (ok resp) eqn:Hok; [|discriminate].
  destruct (payload resp) as [e|d'] eqn:Hpay; [discriminate|].
  injection Hd as ->.
  assert (forall l,
            prop d "data" = JArr l ->
            Assistant.fetch_and_extract up thread
            = ([Fetch (ListMessages thread) (Resolves resp)],
               outcome
                 (assistantMessage ← Assistant.find_assistant l;
                  if negb (truthy assistantMessage) then
                    throw (Error (js "No assistant response found"))
                  else
                    content ← lift (get assistantMessage (js "content"));
                    Assistant.response_text content))) as Hstep.
  { intros l Hl. unfold Assistant.fetch_and_extract. rewrite Hup.
    cbn [fetch]. rewrite (bind_returns _ _ _ _ eq_refl).
    rewrite Hok. cbn [negb]. unfold json. rewrite Hpay, ret_bind.
    rewrite (prop_get d "data" _ Hl) by discriminate.
    rewrite lift_bind. cbn [as_array]. rewrite ret_bind.
    assert (forall (m : M (list N)), trace m = [] ->
              forall t, (t ++ trace m, outcome m) = (t, outcome m)) as Hcut.
    { intros m Hm t. rewrite Hm, app_nil_r. reflexivity. }
    apply Hcut. apply pure_bind; [apply find_assistant_pure|]. intros m.
    destruct (negb (truthy m)); [reflexivity|].
    apply pure_bind; [reflexivity|]. intros content.
    apply response_text_pure. }
  split.
  - intros pre m post Hl Hpre Hm. rewrite (Hstep _ Hl).
    rewrite (find_assistant_skips pre _ Hpre), (find_assistant_here m post Hm).
    rewrite ret_bind.
    destruct (assistant_is_object m Hm) as [-> Hn]. cbn [negb].
    rewrite (get_prop m "content" Hn), lift_bind. reflexivity.
  - intros l Hl Hnone. rewrite (Hstep _ Hl).
    replace l with (l ++ []) by apply app_nil_r.
    rewrite (find_assistant_skips l [] Hnone). reflexivity.
Qed.

Lemma first_assistant_message_is_used_witness :
  Assistant.fetch_and_extract
    (listing [thread_message "user" "hola";
              thread_message "assistant" "newest";
              thread_message "assistant" "older"])
    (JStr (js "thread_1"))
  = ([Fetch (ListMessages (JStr (js "thread_1")))
        (Assistant.on_list_messages
           (listing [thread_message "user" "hola";
                     thread_message "assistant" "newest";
                     thread_message "assistant" "older"]))],
     inr (js "newest"))
  /\ Assistant.fetch_and_extract
       (listing [thread_message "user" "hola"]) (JStr (js "thread_1"))
     = ([Fetch (ListMessages (JStr (js "thread_1")))
           (Assistant.on_list_messages
              (listing [thread_message "user" "hola"]))],
        inl (Error (js "No assistant response found"))).
Proof.
  split.
  - refine (proj1 (first_assistant_message_is_used
              (listing [thread_message "user" "hola";
                        thread_message "assistant" "newest";
                        thread_message "assistant" "older"])
              (JStr (js "thread_1")) _ eq_refl)
              [thread_message "user" "hola"]
              (thread_message "assistant" "newest")
              [thread_message "assistant" "older"] eq_refl eq_refl eq_refl).
  - refine (proj2 (first_assistant_message_is_used
              (listing [thread_message "user" "hola"])
              (JStr (js "thread_1")) _ eq_refl)
              [thread_message "user" "hola"] eq_refl eq_refl).
Defined.

(** ** Variant A: the call and the reply *)

Section Completion.
Import Stateless.
Variable type_error_text : list N -> list N.
Variable env : Env.
Variable completion : FetchResult.

Lemma copy_history_null h :
  forallb not_null h = false ->
  exists e, copy_history h = ([], inl e).
Proof.
  induction h as [|msg h IH]; [discriminate|].
  cbn [forallb copy_history]. intros H.
  destruct (not_null msg) eqn:Hmsg.
  - cbn [andb] in H. destruct (IH H) as [e He].
    apply negb_true_iff in Hmsg.
    rewrite (get_prop msg "role" Hmsg), lift_bind.
    rewrite (get_prop msg "content" Hmsg), lift_bind.
    rewrite He. exists e. reflexivity.
  - apply negb_false_iff in Hmsg.
    destruct msg; try discriminate; eexists; reflexivity.
Qed.

Lemma build_messages_readable message history :
  history_readable history = true ->
  exists messages, build_messages message history = mret messages.
Proof.
  unfold history_readable, build_messages.
  destruct (or_else history (JArr [])) as [| | | | | h |]; try discriminate.
  intros Hh. cbn [as_array]. rewrite ret_bind, (copy_history_entries h Hh).
  rewrite ret_bind. eexists. reflexivity.
Qed.

Lemma build_messages_unreadable message history :
  history_readable history = false ->
  exists e, build_messages message history = ([], inl e).
Proof.
  unfold history_readable, build_messages.
  destruct (or_else history (JArr [])) as [| | | | | h |];
    try (intros _; eexists; reflexivity).
  intros Hh. cbn [as_array]. rewrite ret_bind.
  destruct (copy_history_null h Hh) as [e ->]. exists e. reflexivity.
Qed.

Lemma build_messages_falsy message v w :
  truthy v = false -> truthy w = false ->
  build_messages message v = build_messages message w.
Proof.
  intros Hv Hw. unfold build_messages, or_else. rewrite Hv, Hw. reflexivity.
Qed.

Lemma chat_accepts reqBody :
  acceptable (requested reqBody "message") = true ->
  Stateless.chat type_error_text env completion reqBody
  = try_catch type_error_text
      (Stateless.complete env completion (requested reqBody "message")
         (requested reqBody "conversationHistory")).
Proof.
  intros Hm. unfold Stateless.chat. fold (requested reqBody "message").
  fold (requested reqBody "conversationHistory").
  rewrite invalid_not_acceptable, Hm. reflexivity.
Qed.

Lemma complete_after_build message history messages :
  build_messages message history = mret messages ->
  Stateless.complete env completion message history
  = (response ← fetch (completion_call env messages) completion;
     if negb (ok response) then upstream_error response
     else success response).
Proof.
  intros H. unfold Stateless.complete. rewrite H, ret_bind. reflexivity.
Qed.

Lemma success_reads data resp :
  payload resp = inr data ->
  outcome (success resp)
  = match chosen_content data with
    | Some content =>
        inr {| code := 200;
               body := object [(js "response", content);
                               (js "model", prop data "model");
                               (js "usage", prop data "usage")] |}
    | None => outcome (success resp)
    end
  /\ (chosen_content data = None ->
      exists k, outcome (success resp) = inl (TypeError k)).
Proof.
  intros Hp. unfold success, json, chosen_content. rewrite Hp, ret_bind.
  destruct (get data (js "choices")) as [e|choices] eqn:H1.
  { split; [reflexivity|]. intros _. rewrite lift_bind.
    destruct data; try discriminate; injection H1 as <-;
      eexists; reflexivity. }
  rewrite lift_bind.
  destruct (get_first choices) as [e|choice] eqn:H2.
  { split; [reflexivity|]. intros _. rewrite lift_bind.
    destruct choices; try discriminate; injection H2 as <-;
      eexists; reflexivity. }
  rewrite lift_bind.
  destruct (get choice (js "message")) as [e|message] eqn:H3.
  { split; [reflexivity|]. intros _. rewrite lift_bind.
    destruct choice; try discriminate; injection H3 as <-;
      eexists; reflexivity. }
  rewrite lift_bind.
  destruct (get message (js "content")) as [e|content] eqn:H4.
  { split; [reflexivity|]. intros _. rewrite lift_bind.
    destruct message; try discriminate; injection H4 as <-;
      eexists; reflexivity. }
  rewrite lift_bind.
  apply get_inr_nullish in H1.
  rewrite (get_prop data "model" H1), lift_bind.
  rewrite (get_prop data "usage" H1), lift_bind.
  split; [reflexivity|discriminate].
Qed.

End Completion.

(** X15.  Variant A makes at most one upstream call per request.  It makes
    exactly one when the message is acceptable and the history can be
    mapped; when the message is acceptable but the history is a truthy
    non-array or an array holding [null], it makes none and answers 500
    through the catch-all. *)
Theorem stateless_one_call_or_none
  (type_error_text : list N -> list N) (env : Env) (completion : FetchResult)
  (reqBody : gmap (list N) JsVal) :
  (length (fst (Stateless.chat type_error_text env completion reqBody))
   <= 1)%nat
  /\ (acceptable (requested reqBody "message") = true ->
      history_readable (requested reqBody "conversationHistory") = true ->
      exists messages,
        fst (Stateless.chat type_error_text env completion reqBody)
        = [Fetch (Stateless.completion_call env messages) completion])
  /\ (acceptable (requested reqBody "message") = true ->
      history_readable (requested reqBody "conversationHistory") = false ->
      fst (Stateless.chat type_error_text env completion reqBody) = []
      /\ code (snd (Stateless.chat type_error_text env completion reqBody))
         = 500
      /\ body (snd (Stateless.chat type_error_text env completion reqBody))
           !! js "error" = Some (JStr (js "Internal server error"))).
Proof.
  split; [|split].
  - unfold Stateless.chat. rewrite trace_try_catch.
    destruct (invalid_message _); [cbn; lia|].
    rewrite complete_trace.
    destruct (outcome (Stateless.build_messages _ _)); cbn; lia.
  - intros Hm Hh. rewrite (chat_accepts _ _ _ _ Hm), trace_try_catch.
    rewrite complete_trace.
    destruct (build_messages_readable (requested reqBody "message") _ Hh)
      as [messages ->].
    exists messages. reflexivity.
  - intros Hm Hh. rewrite (chat_accepts _ _ _ _ Hm).
    rewrite trace_try_catch, reply_try_catch, complete_trace.
    unfold Stateless.complete.
    destruct (build_messages_unreadable (requested reqBody "message") _ Hh)
      as [e ->].
    repeat split; reflexivity.
Qed.

Lemma stateless_one_call_or_none_witness :
  fst (Stateless.chat plain example_env (upstream_says 401 "no")
         (history_of [turn "user" "hola"; JNull] "gracias")) = []
  /\ code (snd (Stateless.chat plain example_env (upstream_says 401 "no")
                  (history_of [turn "user" "hola"; JNull] "gracias"))) = 500.
Proof.
  destruct (proj2 (proj2 (stateless_one_call_or_none plain example_env
              (upstream_says 401 "no")
              (history_of [turn "user" "hola"; JNull] "gracias")))
              eq_refl eq_refl) as (H1 & H2 & _).
  split; assumption.
Defined.

(** X16.  Variant A, completion answered with a success status and a body
    that parsed: when [choices[0].message.content] can be read, the reply is
    200 with that content as [response] and the upstream's [model] and
    [usage]; when it cannot (no [choices], an empty array, a choice without
    [message]), the reply is 500 through the catch-all. *)
Theorem completion_success_reply
  (type_error_text : list N -> list N) (env : Env) (completion : FetchResult)
  (reqBody : gmap (list N) JsVal) (data : JsVal) :
  acceptable (requested reqBody "message") = true ->
  history_readable (requested reqBody "conversationHistory") = true ->
  parsed completion = Some data ->
  (forall content,
     chosen_content data = Some content ->
     snd (Stateless.chat type_error_text env completion reqBody)
     = {| code := 200;
          body := object [(js "response", content);
                          (js "model", prop data "model");
                          (js "usage", prop data "usage")] |})
  /\ (chosen_content data = None ->
      code (snd (Stateless.chat type_error_text env completion reqBody)) = 500
      /\ body (snd (Stateless.chat type_error_text env completion reqBody))
           !! js "error" = Some (JStr (js "Internal server error"))).
Proof.
  intros Hm Hh Hp. rewrite (chat_accepts _ _ _ _ Hm), reply_try_catch.
  destruct (build_messages_readable (requested reqBody "message") _ Hh)
    as [messages Hb].
  rewrite (complete_after_build env completion _ _ _ Hb).
  unfold parsed in Hp. destruct completion as [m|resp]; [discriminate|].
  destruct (ok resp) eqn:Hok; [|discriminate].
  destruct (payload resp) as [m|d] eqn:Hpay; [discriminate|].
  injection Hp as ->.
  rewrite outcome_bind. cbn [fetch outcome snd]. rewrite Hok. cbn [negb].
  destruct (success_reads data resp Hpay) as [Hsome Hnone].
  split.
  - intros content Hc. rewrite Hc in Hsome. rewrite Hsome. reflexivity.
  - intros Hc. destruct (Hnone Hc) as [k ->]. split; reflexivity.
Qed.

Lemma completion_success_reply_witness :
  snd (Stateless.chat plain example_env (answers 200 one_choice)
         (says "hola"))
  = {| code := 200;
       body := object [(js "response", JStr (js "buenas"));
                       (js "model", JStr (js "gpt-4"));
                       (js "usage", JUndefined)] |}
  /\ code (snd (Stateless.chat plain example_env (answers 200 no_choice)
                  (says "hola"))) = 500.
Proof.
  split.
  - refine (proj1 (completion_success_reply plain example_env
              (answers 200 one_choice) (says "hola") one_choice
              eq_refl eq_refl eq_refl) (JStr (js "buenas")) eq_refl).
  - refine (proj1 (proj2 (completion_success_reply plain example_env
              (answers 200 no_choice) (says "hola") no_choice
              eq_refl eq_refl eq_refl) eq_refl)).
Defined.

(** X17.  Variant A treats a falsy [conversationHistory] ([null], [false],
    [0], the empty string) as an absent one: the handler does on such a body
    exactly what it does on the same body without the field. *)
Theorem falsy_history_is_absent
  (type_error_text : list N -> list N) (env : Env) (completion : FetchResult)
  (reqBody : gmap (list N) JsVal) (v : JsVal) :
  reqBody !! js "conversationHistory" = Some v ->
  truthy v = false ->
  Stateless.chat type_error_text env completion reqBody
  = Stateless.chat type_error_text env completion
      (delete (js "conversationHistory") reqBody).
Proof.
  intros Hsome Hfalsy. unfold Stateless.chat.
  rewrite lookup_delete_ne by (vm_compute; discriminate).
  rewrite lookup_delete_eq, Hsome. cbn [from_option id].
  destruct (invalid_message _); [reflexivity|].
  unfold Stateless.complete.
  rewrite (build_messages_falsy _ v JUndefined Hfalsy eq_refl). reflexivity.
Qed.

Lemma falsy_history_is_absent_witness :
  Stateless.chat plain example_env (upstream_says 401 "no")
    (object [(js "message", JStr (js "hola"));
             (js "conversationHistory", JNull)])
  = Stateless.chat plain example_env (upstream_says 401 "no")
      (delete (js "conversationHistory")
         (object [(js "message", JStr (js "hola"));
                  (js "conversationHistory", JNull)])).
Proof.
  apply (falsy_history_is_absent plain example_env (upstream_says 401 "no")
           _ JNull); reflexivity.
Defined.

(** X18.  The status Variant A sends is 200, 400 or 500, or else the status
    of a non-success response of the upstream, passed on unchanged. *)
Theorem stateless_codes
  (type_error_text : list N -> list N) (env : Env) (completion : FetchResult)
  (reqBody : gmap (list N) JsVal) :
  code (snd (Stateless.chat type_error_text env completion reqBody)) = 200
  \/ code (snd (Stateless.chat type_error_text env completion reqBody)) = 400
  \/ code (snd (Stateless.chat type_error_text env completion reqBody)) = 500
  \/ exists resp,
       completion = Resolves resp /\ ok resp = false
       /\ code (snd (Stateless.chat type_error_text env completion reqBody))
          = status resp.
Proof.
  unfold Stateless.chat. rewrite reply_try_catch.
  destruct (invalid_message _); [right; left; reflexivity|].
  destruct (outcome (Stateless.complete env completion _ _))
    as [e|reply] eqn:H; [right; right; left; reflexivity|].
  unfold Stateless.complete in H.
  apply outcome_bind_inr in H as (messages & _ & H).
  apply outcome_bind_inr in H as (resp & Hresp & H).
  destruct completion as [m|resp']; [discriminate|].
  injection Hresp as ->.
  destruct (ok resp) eqn:Hok; cbn [negb] in H.
  - left. unfold Stateless.success in H.
    repeat (apply outcome_bind_inr in H as (? & _ & H)).
    injection H as <-. reflexivity.
  - right; right; right. exists resp.
    split; [reflexivity|]. split; [exact Hok|].
    unfold Stateless.upstream_error in H.
    repeat (apply outcome_bind_inr in H as (? & _ & H)).
    injection H as <-. reflexivity.
Qed.

(** X19.  Variant A, call made but no usable response: when the fetch is
    rejected (network failure), or the response's body does not parse as
    JSON, the reply is 500 with [{error: "Internal server error", message}]
    and [message] is the message of that rejection. *)
Theorem completion_rejected
  (type_error_text : list N -> list N) (env : Env) (completion : FetchResult)
  (reqBody : gmap (list N) JsVal) (msg : list N) :
  acceptable (requested reqBody "message") = true ->
  history_readable (requested reqBody "conversationHistory") = true ->
  completion = Rejects msg
  \/ (exists resp, completion = Resolves resp /\ payload resp = inl msg) ->
  snd (Stateless.chat type_error_text env completion reqBody)
  = {| code := 500;
       body := object
         [(js "error", JStr (js "Internal server error"));
          (js "message", JStr msg)] |}.
Proof.
  intros Hm Hh Hc. rewrite (chat_accepts _ _ _ _ Hm), reply_try_catch.
  destruct (build_messages_readable (requested reqBody "message") _ Hh)
    as [messages Hb].
  rewrite (complete_after_build env completion _ _ _ Hb).
  rewrite outcome_bind.
  destruct Hc as [-> | (resp & -> & Hp)]; [reflexivity|].
  cbn [fetch outcome snd].
  destruct (negb (ok resp));
    unfold Stateless.upstream_error, Stateless.success, json;
    rewrite Hp; reflexivity.
Qed.

Lemma completion_rejected_witness :
  snd (Stateless.chat plain example_env (Rejects (js "fetch failed"))
         (says "hola"))
  = {| code := 500;
       body := object
         [(js "error", JStr (js "Internal server error"));
          (js "message", JStr (js "fetch failed"))] |}.
Proof.
  apply (completion_rejected plain example_env (Rejects (js "fetch failed"))
           (says "hola") (js "fetch failed") eq_refl eq_refl).
  left. reflexivity.
Defined.
